(** * ChatBook backend: a shallow embedding of [backend/main.py] and
    [backend/models.py], and the properties of its registry, router,
    token service and stores.

    Conventions of the embedding.
    - Python exceptions are values of [exn]; a call that may raise returns
      an [outcome].
    - Stateful code passes the state explicitly: the relational store is a
      [Db], the process state a [World].
    - Everything the program takes from outside (clock readings, the result
      of a commit, whether a socket write succeeds, the salt of a password
      hash) is an explicit argument.
    - Time is a number of seconds, as in the [exp] claim of a token. *)

From stdpp Require Import gmap strings list sorting.
From Stdlib Require Import ZArith Lia DecimalString.

Open Scope string_scope.

(** ** Exceptions and results *)

Inductive exn : Type :=
| HTTPException (status_code : nat) (detail : string)
| JWTError
| WebSocketDisconnect
| SQLAlchemyError
| RuntimeError
| ValueError.

Inductive outcome (A : Type) : Type :=
| Return (a : A)
| Raise (e : exn).

Arguments Return {A} a.
Arguments Raise {A} e.

#[global] Instance exn_eq_dec : EqDecision exn.
Proof. solve_decision. Defined.

(** ** Tokens

    [jose.jwt] is a third-party library.  It is modelled symbolically: a
    signed token is the algorithm, the key it was signed with and its claims;
    any other string, and a signed payload that is not a JSON object, is
    [Malformed].

    A claim value is a JSON string or a JSON integer: what the code writes
    and what the checks below tell apart.  Other JSON values (null, booleans,
    floats, arrays, objects) are outside the model. *)

Inductive claim : Type :=
| CStr (s : string)
| CNum (n : Z).

#[global] Instance claim_eq_dec : EqDecision claim.
Proof. solve_decision. Defined.

Inductive token : Type :=
| Malformed (raw : string)
| Signed (alg : string) (key : string) (claims : gmap string claim).

Definition jwt_encode (claims : gmap string claim) (key alg : string) : token :=
  Signed alg key claims.

(** Python's [int(v)] on a claim value.  On a string it is the builtin's
    parser, taken as the parameter [int_of_str] ([None] for [ValueError]). *)
Definition py_int (int_of_str : string → option Z) (v : claim) : outcome Z :=
  match v with
  | CNum n => Return n
  | CStr s =>
      match int_of_str s with
      | Some n => Return n
      | None => Raise ValueError
      end
  end.

(** The shape of [_validate_iat], [_validate_nbf] and [_validate_exp]: an
    absent claim passes; a present one goes through [int()], a [ValueError]
    becoming a [JWTClaimsError], and then through the check on the number.
    [JWTClaimsError] and [ExpiredSignatureError] are [JWTError]s. *)
Definition validate_time (int_of_str : string → option Z) (v : option claim)
    (ok : Z → bool) : outcome unit :=
  match v with
  | None => Return tt
  | Some c =>
      match py_int int_of_str c with
      | Return n => if ok n then Return tt else Raise JWTError
      | Raise ValueError => Raise JWTError
      | Raise e => Raise e
      end
  end.

(** [_validate_sub] and [_validate_jti]: when present, a string. *)
Definition validate_str (v : option claim) : outcome unit :=
  match v with
  | None | Some (CStr _) => Return tt
  | Some (CNum _) => Raise JWTError
  end.

(** [_validate_aud] with no expected audience and [_validate_at_hash] with
    no access token: the claim must be absent. *)
Definition validate_absent (v : option claim) : outcome unit :=
  match v with
  | None => Return tt
  | Some _ => Raise JWTError
  end.

Definition then_ (c : outcome unit) (k : outcome unit) : outcome unit :=
  match c with
  | Return _ => k
  | Raise e => Raise e
  end.

(** [_validate_claims] with the default options and no expected audience,
    issuer or subject, in jose's order: [iat], [nbf], [exp], [aud], [iss]
    (compared only with an expected issuer, so not at all), [sub], [jti],
    [at_hash].  A token is not yet valid while [nbf > now] and has expired
    once [exp < now]. *)
Definition validate_claims (int_of_str : string → option Z)
    (claims : gmap string claim) (now : Z) : outcome unit :=
  then_ (validate_time int_of_str (claims !! "iat") (λ _, true))
  (then_ (validate_time int_of_str (claims !! "nbf") (λ nbf, negb (now <? nbf)%Z))
  (then_ (validate_time int_of_str (claims !! "exp") (λ exp, negb (exp <? now)%Z))
  (then_ (validate_absent (claims !! "aud"))
  (then_ (validate_str (claims !! "sub"))
  (then_ (validate_str (claims !! "jti"))
         (validate_absent (claims !! "at_hash"))))))).

(** [jwt.decode(token, key, algorithms=...)]: the signature and the
    algorithm of the header are verified, then the claims. *)
Definition jwt_decode (int_of_str : string → option Z) (tok : token)
    (key : string) (algorithms : list string) (now : Z)
    : outcome (gmap string claim) :=
  match tok with
  | Malformed _ => Raise JWTError
  | Signed alg k claims =>
      if bool_decide (alg ∈ algorithms) && bool_decide (k = key) then
        match validate_claims int_of_str claims now with
        | Return _ => Return claims
        | Raise e => Raise e
        end
      else Raise JWTError
  end.

(** ** The relational store ([models.py]) *)

Record User : Type := mkUser {
  user_id : nat;
  user_username : string;
  user_password_hash : string;
  user_created_at : Z
}.

Record Message : Type := mkMessage {
  msg_id : nat;
  msg_sender_id : nat;
  msg_receiver_id : nat;
  msg_content : string;
  msg_status : string;
  msg_timestamp : Z
}.

Record Db : Type := mkDb {
  users : list User;
  messages : list Message
}.

#[global] Instance User_eq_dec : EqDecision User.
Proof. solve_decision. Defined.

#[global] Instance Message_eq_dec : EqDecision Message.
Proof. solve_decision. Defined.

(** The key an autoincrement column hands out: above every key in use. *)
Definition fresh_id (ids : list nat) : nat := S (foldr max 0 ids).

Definition add_user (u : User) (d : Db) : Db :=
  mkDb (users d ++ [u]) (messages d).

Definition add_message (m : Message) (d : Db) : Db :=
  mkDb (users d) (messages d ++ [m]).

(** [db.query(User).filter(User.username == username).first()] *)
Definition get_user_by_username (d : Db) (username : string) : option User :=
  head (filter (λ u, user_username u = username) (users d)).

(** The constraints [models.py] puts on the [users] table: [id] is a primary
    key and [username] is unique. *)
Definition users_wf (d : Db) : Prop :=
  NoDup (user_id <$> users d) ∧ NoDup (user_username <$> users d).

(** ** Schemas *)

Record UserCreate : Type := mkUserCreate {
  uc_username : string;
  uc_password : string
}.

Record Token : Type := mkToken {
  tok_access_token : token;
  tok_refresh_token : token;
  tok_token_type : string
}.

Definition ALGORITHM : string := "HS256".
Definition ACCESS_TOKEN_EXPIRE_MINUTES : Z := 30.
Definition REFRESH_TOKEN_EXPIRE_DAYS : Z := 7.

Definition minutes (n : Z) : Z := (n * 60)%Z.
Definition days (n : Z) : Z := (n * 86400)%Z.

Section TokenService.

(** [SECRET_KEY] comes from the process environment; [int_of_str] is
    Python's [int] on strings; [pwd_context] is passlib's bcrypt context,
    whose [hash] draws a salt and whose [hash] and [verify] raise on a
    password or a hash they do not take. *)
Variable SECRET_KEY : string.
Variable int_of_str : string → option Z.
Variable pwd_hash : string → string → outcome string.
Variable pwd_verify : string → string → outcome bool.

Definition verify_password (plain_password hashed_password : string)
    : outcome bool :=
  pwd_verify plain_password hashed_password.

Definition get_password_hash (salt password : string) : outcome string :=
  pwd_hash salt password.

(** [expires_delta or timedelta(minutes=...)]: a zero [timedelta] is falsy. *)
Definition create_access_token (data : gmap string claim)
    (expires_delta : option Z) (now : Z) : token :=
  let to_encode := data in
  let delta :=
    match expires_delta with
    | Some d => if (d =? 0)%Z then minutes ACCESS_TOKEN_EXPIRE_MINUTES else d
    | None => minutes ACCESS_TOKEN_EXPIRE_MINUTES
    end in
  let expire := (now + delta)%Z in
  jwt_encode (<["exp" := CNum expire]> to_encode) SECRET_KEY ALGORITHM.

Definition create_refresh_token (data : gmap string claim) (now : Z) : token :=
  let expire := (now + days REFRESH_TOKEN_EXPIRE_DAYS)%Z in
  let to_encode := data in
  jwt_encode (<["type" := CStr "refresh"]> (<["exp" := CNum expire]> to_encode))
    SECRET_KEY ALGORITHM.

(** [POST /register] *)
Definition register (user : UserCreate) (salt : string) (now : Z) (d : Db)
    : outcome string * Db :=
  match get_user_by_username d (uc_username user) with
  | Some _ => (Raise (HTTPException 400 "Username already registered"), d)
  | None =>
      match get_password_hash salt (uc_password user) with
      | Raise e => (Raise e, d)
      | Return hashed_password =>
          let db_user := mkUser (fresh_id (user_id <$> users d))
                                (uc_username user) hashed_password now in
          (Return "User registered successfully", add_user db_user d)
      end
  end.

(** [POST /login] *)
Definition login (form_username form_password : string) (now : Z) (d : Db)
    : outcome Token :=
  match get_user_by_username d form_username with
  | None => Raise (HTTPException 401 "Incorrect username or password")
  | Some user =>
      match verify_password form_password (user_password_hash user) with
      | Raise e => Raise e
      | Return false =>
          Raise (HTTPException 401 "Incorrect username or password")
      | Return true =>
          let access_token := create_access_token {["sub" := CStr (user_username user)]} None now in
          let refresh_token := create_refresh_token {["sub" := CStr (user_username user)]} now in
          Return (mkToken access_token refresh_token "bearer")
      end
  end.

(** The [try] block of [refresh_token]: decode, check the type marker, read
    the subject.  [HTTPException] is not a [JWTError], so the handler lets it
    through unchanged. *)
Definition decode_refresh (tok : token) (now : Z) : outcome claim :=
  match jwt_decode int_of_str tok SECRET_KEY [ALGORITHM] now with
  | Raise JWTError => Raise (HTTPException 401 "Invalid refresh token")
  | Raise e => Raise e
  | Return payload =>
      if bool_decide (payload !! "type" ≠ Some (CStr "refresh")) then
        Raise (HTTPException 401 "Invalid refresh token type")
      else
        match payload !! "sub" with
        | None => Raise (HTTPException 401 "Invalid refresh token")
        | Some username => Return username
        end
  end.

(** A subject that is not a string equals no [username]. *)
Definition get_user_by_claim (d : Db) (c : claim) : option User :=
  match c with
  | CStr username => get_user_by_username d username
  | CNum _ => None
  end.

(** [POST /refresh-token] *)
Definition refresh_token (tok : token) (now : Z) (d : Db) : outcome Token :=
  match decode_refresh tok now with
  | Raise e => Raise e
  | Return username =>
      match get_user_by_claim d username with
      | None => Raise (HTTPException 401 "User not found")
      | Some user =>
          let access_token := create_access_token {["sub" := CStr (user_username user)]} None now in
          let new_refresh_token := create_refresh_token {["sub" := CStr (user_username user)]} now in
          Return (mkToken access_token new_refresh_token "bearer")
      end
  end.

(** Modelled from the spec: the source has no stand-alone [validate]; it
    checks a token only inside [refresh_token].  This is the spec's
    [validate(token) -> identity | Error] for an access token: signature and
    expiry are verified, and the call fails when the embedded identity is
    absent.  Refresh-token validation is [decode_refresh] above. *)
Definition validate (tok : token) (now : Z) : outcome claim :=
  match jwt_decode int_of_str tok SECRET_KEY [ALGORITHM] now with
  | Raise e => Raise e
  | Return payload =>
      match payload !! "sub" with
      | None => Raise JWTError
      | Some sub => Return sub
      end
  end.

End TokenService.

(** ** Conversation retrieval *)

Record MessageRow : Type := mkRow {
  row_id : nat;
  row_from : string;
  row_to : string;
  row_content : string;
  row_status : string;
  row_timestamp : Z
}.

(** The [filter] clause of [get_messages]. *)
Definition between (a b : User) (m : Message) : Prop :=
  (msg_sender_id m = user_id a ∧ msg_receiver_id m = user_id b) ∨
  (msg_sender_id m = user_id b ∧ msg_receiver_id m = user_id a).

#[global] Instance between_dec a b m : Decision (between a b m).
Proof. unfold between. apply _. Defined.

(** [order_by(Message.timestamp.asc())]: rows with equal timestamps come in
    an order the database chooses; the merge sort is one such choice. *)
Definition earlier (m1 m2 : Message) : Prop :=
  (msg_timestamp m1 ≤ msg_timestamp m2)%Z.

#[global] Instance earlier_dec m1 m2 : Decision (earlier m1 m2).
Proof. unfold earlier. apply _. Defined.

#[global] Instance earlier_total : Total earlier.
Proof. intros m1 m2. unfold earlier. lia. Qed.

#[global] Instance earlier_trans : Transitive earlier.
Proof. intros m1 m2 m3. unfold earlier. lia. Qed.

Definition order_by_timestamp (ms : list Message) : list Message :=
  merge_sort earlier ms.

Definition render (user1 user2 : string) (user1_obj : User) (m : Message)
    : MessageRow :=
  mkRow (msg_id m)
        (if bool_decide (msg_sender_id m = user_id user1_obj) then user1 else user2)
        (if bool_decide (msg_sender_id m = user_id user1_obj) then user2 else user1)
        (msg_content m) (msg_status m) (msg_timestamp m).

(** [GET /messages] *)
Definition get_messages (user1 user2 : string) (d : Db)
    : outcome (list MessageRow) :=
  match get_user_by_username d user1, get_user_by_username d user2 with
  | Some user1_obj, Some user2_obj =>
      let msgs :=
        order_by_timestamp (filter (between user1_obj user2_obj) (messages d)) in
      Return (render user1 user2 user1_obj <$> msgs)
  | _, _ => Return []
  end.

(** ** The connection registry and the per-session loop *)

(** A socket is known by its identity; [ws_token] is the token its opening
    handshake carried, if any. *)
Record WebSocket : Type := mkWebSocket {
  ws_id : nat;
  ws_token : option token
}.

(** Outbound frames. *)
Inductive frame : Type :=
| ErrorFrame (error : string)
| FromFrame (from content status : string) (timestamp : Z) (id : nat)
| ToFrame (to content status : string) (timestamp : Z) (id : nat).

(** The process state: the store, [manager.active_connections], and the
    frames that sockets have accepted, oldest first. *)
Record World : Type := mkWorld {
  db : Db;
  active_connections : gmap string WebSocket;
  sent : list (WebSocket * frame)
}.

(** What the outside decides about one I/O call: it completes, or it raises
    (a closed or broken socket, a store that is down). *)
Inductive io : Type :=
| IoOk
| IoRaise (e : exn).

(** An inbound frame is a JSON object whose fields are strings, as the
    session endpoint's interface has it; [data.get(k)] is [data !! k]. *)
Inductive recv : Type :=
| RecvJson (data : gmap string string)
| RecvRaise (e : exn).

(** One pass through the [while True] body: the frame received (or the
    exception [receive_json] raises), the clock, and the fate of the commit,
    of the push to the recipient and of the write to the sender. *)
Record turn : Type := mkTurn {
  t_recv : recv;
  t_now : Z;
  t_commit : io;
  t_push : io;
  t_reply : io
}.

(** A Python return value of a function that may return [None] or a
    boolean. *)
Inductive pyval : Type :=
| PyNone
| PyBool (b : bool).

(** State and exceptions: a computation takes the world and gives back a
    result or an exception together with the world it leaves. *)
Definition M (A : Type) : Type := World → outcome A * World.

Definition ret {A} (a : A) : M A := λ w, (Return a, w).

Definition raise {A} (e : exn) : M A := λ w, (Raise e, w).

Definition bind {A B} (c : M A) (k : A → M B) : M B :=
  λ w, match c w with
       | (Return a, w') => k a w'
       | (Raise e, w') => (Raise e, w')
       end.

(** [try: c except Exception as e: logger.exception(...)] *)
Definition try_log (c : M unit) : M unit :=
  λ w, match c w with
       | (Return a, w') => (Return a, w')
       | (Raise _, w') => (Return tt, w')
       end.

Declare Scope m_scope.
Delimit Scope m_scope with M.
Notation "x <~ c ;; k" := (bind c (λ x, k))
  (at level 100, c at next level, right associativity) : m_scope.
Notation "c ;;; k" := (bind c (λ _, k))
  (at level 100, right associativity) : m_scope.

(** [await ws.send_json(message)] *)
Definition send_json (ws : WebSocket) (message : frame) (r : io) : M unit :=
  λ w, match r with
       | IoOk => (Return tt, mkWorld (db w) (active_connections w)
                                     (sent w ++ [(ws, message)]))
       | IoRaise e => (Raise e, w)
       end.

(** [await websocket.receive_json()] *)
Definition receive_json (r : recv) : M (gmap string string) :=
  λ w, match r with
       | RecvJson data => (Return data, w)
       | RecvRaise e => (Raise e, w)
       end.

(** [ConnectionManager.connect] *)
Definition connect (username : string) (websocket : WebSocket) (accept : io)
    : M unit :=
  λ w, match accept with
       | IoRaise e => (Raise e, w)
       | IoOk => (Return tt, mkWorld (db w)
                               (<[username := websocket]> (active_connections w))
                               (sent w))
       end.

(** [ConnectionManager.disconnect]: [pop(username, None)] *)
Definition disconnect (username : string) (w : World) : World :=
  mkWorld (db w) (delete username (active_connections w)) (sent w).

(** [ConnectionManager.send_personal_message]; it has no [return]
    statement, so every call that completes yields [None]. *)
Definition send_personal_message (message : frame) (username : string)
    (push : io) : M pyval :=
  λ w, match active_connections w !! username with
       | Some ws =>
           bind (try_log (send_json ws message push)) (λ _, ret PyNone) w
       | None => (Return PyNone, w)
       end.

(** [db.add(msg); db.commit(); db.refresh(msg)]: the commit assigns the key
    and the timestamp default, or raises and stores nothing. *)
Definition persist (sender_id receiver_id : nat) (content status : string)
    (now : Z) (commit : io) : M Message :=
  λ w, match commit with
       | IoRaise e => (Raise e, w)
       | IoOk =>
           let msg := mkMessage (fresh_id (msg_id <$> messages (db w)))
                                sender_id receiver_id content status now in
           (Return msg, mkWorld (add_message msg (db w)) (active_connections w)
                                (sent w))
       end.

(** [not v] is false exactly when the field is present and is not the empty
    string; [nonempty] keeps such a value. *)
Definition nonempty (v : option string) : option string :=
  match v with
  | Some s => if bool_decide (s = "") then None else Some s
  | None => None
  end.

Open Scope m_scope.

(** The body of the [while True] loop of [chat_websocket]. *)
Definition handle_frame (websocket : WebSocket) (username : string) (t : turn)
    : M unit :=
  data <~ receive_json (t_recv t);;
  match nonempty (data !! "to"), nonempty (data !! "content") with
  | Some to_user, Some content =>
      λ w,
      let sender := get_user_by_username (db w) username in
      let receiver := get_user_by_username (db w) to_user in
      match sender, receiver with
      | Some sender, Some receiver =>
          (msg <~ persist (user_id sender) (user_id receiver) content "sent"
                   (t_now t) (t_commit t);;
           send_personal_message
             (FromFrame username content "sent" (msg_timestamp msg) (msg_id msg))
             to_user (t_push t);;;
           try_log (send_json websocket
             (ToFrame to_user content "sent" (msg_timestamp msg) (msg_id msg))
             (t_reply t))) w
      | _, _ => send_json websocket (ErrorFrame "User not found.") (t_reply t) w
      end
  | _, _ => send_json websocket (ErrorFrame "Invalid message format.") (t_reply t)
  end.

Close Scope m_scope.

(** Where the loop stands after the turns given: blocked in [receive_json],
    or left by an exception. *)
Inductive loop_result : Type :=
| Waiting
| Exited (e : exn).

Fixpoint session_loop (websocket : WebSocket) (username : string)
    (turns : list turn) (w : World) : loop_result * World :=
  match turns with
  | [] => (Waiting, w)
  | t :: rest =>
      match handle_frame websocket username t w with
      | (Return _, w') => session_loop websocket username rest w'
      | (Raise e, w') => (Exited e, w')
      end
  end.

(** The states of a session: [Receiving] while the handler is in its loop,
    [Disconnected] once it has returned, [Aborted e] when it has let the
    exception [e] through. *)
Inductive session_status : Type :=
| Receiving
| Disconnected
| Aborted (e : exn).

(** The [try] statement of [chat_websocket].  Only [WebSocketDisconnect] is
    caught; the [finally] clause closes the handler's database session. *)
Definition serve (websocket : WebSocket) (username : string)
    (turns : list turn) (w : World) : session_status * World :=
  match session_loop websocket username turns w with
  | (Waiting, w1) => (Receiving, w1)
  | (Exited WebSocketDisconnect, w1) => (Disconnected, disconnect username w1)
  | (Exited e, w1) => (Aborted e, w1)
  end.

(** [WS /ws/chat/{username}] *)
Definition chat_websocket (websocket : WebSocket) (username : string)
    (accept : io) (turns : list turn) (w : World) : session_status * World :=
  match connect username websocket accept w with
  | (Raise e, w0) => (Aborted e, w0)
  | (Return _, w0) => serve websocket username turns w0
  end.

(** ** Vocabulary of the properties *)

(** The registry's [lookup]. *)
Definition lookup_session (username : string) (w : World) : option WebSocket :=
  active_connections w !! username.

(** The user a foreign key stands for, and the names of a message's two
    ends. *)
Definition get_user_by_id (d : Db) (i : nat) : option User :=
  head (filter (λ u, user_id u = i) (users d)).

Definition sender_name (d : Db) (m : Message) : option string :=
  user_username <$> get_user_by_id d (msg_sender_id m).

Definition receiver_name (d : Db) (m : Message) : option string :=
  user_username <$> get_user_by_id d (msg_receiver_id m).

(** [m] is a message of the conversation of [A] and [B], in either
    direction. *)
Definition conversation (d : Db) (A B : string) (m : Message) : Prop :=
  (sender_name d m = Some A ∧ receiver_name d m = Some B) ∨
  (sender_name d m = Some B ∧ receiver_name d m = Some A).

#[global] Instance conversation_dec d A B m : Decision (conversation d A B m).
Proof. unfold conversation. apply _. Defined.

(** A stored message as a history entry, with the names of its ends. *)
Definition row_of (d : Db) (m : Message) : MessageRow :=
  mkRow (msg_id m) (default "" (sender_name d m)) (default "" (receiver_name d m))
        (msg_content m) (msg_status m) (msg_timestamp m).

(** The range of Python's [datetime], in seconds since the epoch:
    0001-01-01T00:00:00 to 9999-12-31T23:59:59.  A sum of a [datetime] and a
    [timedelta] outside it raises [OverflowError]. *)
Definition DATETIME_MIN : Z := (-62135596800)%Z.
Definition DATETIME_MAX : Z := 253402300799%Z.

Definition in_datetime_range (t : Z) : Prop :=
  (DATETIME_MIN ≤ t ≤ DATETIME_MAX)%Z.

(** The type marker a token carries, if any. *)
Definition type_marker (tok : token) : option claim :=
  match tok with
  | Malformed _ => None
  | Signed _ _ claims => claims !! "type"
  end.

(** A frame field that is missing or empty. *)
Definition missing_or_empty (data : gmap string string) (field : string) : Prop :=
  data !! field = None ∨ data !! field = Some "".

(** The store after any number of registrations and persisted messages. *)
Inductive evolves (pwd_hash : string → string → outcome string)
    : Db → Db → Prop :=
| evolves_refl d : evolves pwd_hash d d
| evolves_register d d' user salt now :
    evolves pwd_hash d d' →
    evolves pwd_hash d (snd (register pwd_hash user salt now d'))
| evolves_message d d' m :
    evolves pwd_hash d d' →
    evolves pwd_hash d (add_message m d').

(** A refresh token together with the identity it was issued for: the pair
    [issued] is the answer of one of the two endpoints that issue tokens,
    [login] for the user [X] or [refresh_token] for a token whose subject is
    [X], at time [t0] on the store [d0]. *)
Inductive issued_for (SECRET_KEY : string) (int_of_str : string → option Z)
    (pwd_verify : string → string → outcome bool)
    (X : string) (t0 : Z) (d0 : Db) (issued : Token) : Prop :=
| issued_by_login password :
    login SECRET_KEY pwd_verify X password t0 d0 = Return issued →
    issued_for SECRET_KEY int_of_str pwd_verify X t0 d0 issued
| issued_by_rotation tok :
    decode_refresh SECRET_KEY int_of_str tok t0 = Return (CStr X) →
    refresh_token SECRET_KEY int_of_str tok t0 d0 = Return issued →
    issued_for SECRET_KEY int_of_str pwd_verify X t0 d0 issued.

(** The same socket and the same world with the handshake tokens blanked
    out. *)
Definition erase_token (ws : WebSocket) : WebSocket :=
  mkWebSocket (ws_id ws) None.

Definition erase_tokens (w : World) : World :=
  mkWorld (db w) (erase_token <$> active_connections w)
          (prod_map erase_token id <$> sent w).

(** ** Sample data *)

Definition key0 : string := "supersecretkey".
(** A stand-in for the hash context: a password with a NUL byte is
    refused, by [hash] and by [verify] alike. *)
Fixpoint has_nul (s : string) : bool :=
  match s with
  | EmptyString => false
  | String c rest => Ascii.eqb c Ascii.zero || has_nul rest
  end.
Definition hash0 (salt password : string) : outcome string :=
  if has_nul password then Raise ValueError
  else Return (salt ++ "$" ++ password).
Definition verify0 (plain hashed : string) : outcome bool :=
  if has_nul plain then Raise ValueError
  else Return (bool_decide (hashed = "na" ++ "$" ++ plain)).

(** A stand-in for [int] on strings: plain decimal digits. *)
Definition int0 (s : string) : option Z :=
  if bool_decide (s = "") then None
  else Z.of_uint <$> NilEmpty.uint_of_string s.

Definition alice : User := mkUser 1 "alice" "na$wonderland" 100.
Definition bob : User := mkUser 2 "bob" "na$builder" 101.

Definition db0 : Db := mkDb [alice; bob] [].

Definition db1 : Db :=
  mkDb [alice; bob]
       [mkMessage 1 1 2 "hi" "sent" 300;
        mkMessage 2 2 1 "yo" "sent" 200;
        mkMessage 3 1 1 "note" "sent" 250].

Definition ws1 : WebSocket := mkWebSocket 1 None.
Definition ws2 : WebSocket := mkWebSocket 2 None.
Definition ws_bad : WebSocket := mkWebSocket 3 (Some (Malformed "not-a-jwt")).

Definition world0 : World := mkWorld db0 ∅ [].

Definition frame_to (to content : string) : gmap string string :=
  <["to" := to]> (<["content" := content]> ∅).

Definition turn_ok (data : gmap string string) (now : Z) : turn :=
  mkTurn (RecvJson data) now IoOk IoOk IoOk.

Definition turn_commit_fails (data : gmap string string) (now : Z) : turn :=
  mkTurn (RecvJson data) now (IoRaise SQLAlchemyError) IoOk IoOk.

Definition turn_disconnect : turn :=
  mkTurn (RecvRaise WebSocketDisconnect) 0 IoOk IoOk IoOk.

(** ** Further endpoints *)

Section Endpoints.

Variable SECRET_KEY : string.
Variable pwd_verify : string → string → outcome bool.

(** [POST /login-json]: the body is a JSON object; [not username] holds for
    a missing field and for the empty string. *)
Definition login_json (payload : gmap string string) (now : Z) (d : Db)
    : outcome Token :=
  match nonempty (payload !! "username"), nonempty (payload !! "password") with
  | Some username, Some password =>
      match get_user_by_username d username with
      | None => Raise (HTTPException 401 "Incorrect username or password")
      | Some user =>
          match verify_password pwd_verify password (user_password_hash user) with
          | Raise e => Raise e
          | Return false =>
              Raise (HTTPException 401 "Incorrect username or password")
          | Return true =>
              let access_token :=
                create_access_token SECRET_KEY
                  {["sub" := CStr (user_username user)]} None now in
              let refresh_token :=
                create_refresh_token SECRET_KEY
                  {["sub" := CStr (user_username user)]} now in
              Return (mkToken access_token refresh_token "bearer")
          end
      end
  | _, _ => Raise (HTTPException 400 "username and password required")
  end.

End Endpoints.


(** An envelope that quotes a stored message: its id, content, status and
    timestamp are those of one row of the [messages] table. *)
Definition frame_backed (d : Db) (f : frame) : Prop :=
  match f with
  | ErrorFrame _ => True
  | FromFrame _ content status timestamp id
  | ToFrame _ content status timestamp id =>
      ∃ m, m ∈ messages d ∧ msg_id m = id ∧ msg_content m = content ∧
           msg_status m = status ∧ msg_timestamp m = timestamp
  end.

(** The messages a session of [username] may have stored on top of the
    store [d]: status [sent], the session's own user as sender, a stored user
    as receiver. *)
Definition stored_by (d : Db) (username : string) (m : Message) : Prop :=
  msg_status m = "sent" ∧
  (∃ sender, get_user_by_username d username = Some sender ∧
             msg_sender_id m = user_id sender) ∧
  (∃ receiver, receiver ∈ users d ∧ msg_receiver_id m = user_id receiver).

(** * Properties *)

(** ** Connection registry *)

Lemma lookup_connect (X : string) (s : WebSocket) (w : World) :
  lookup_session X (snd (connect X s IoOk w)) = Some s.
Proof. unfold lookup_session, connect. simpl. apply lookup_insert_eq. Qed.

Lemma lookup_disconnect (X : string) (w : World) :
  lookup_session X (disconnect X w) = None.
Proof. unfold lookup_session, disconnect. simpl. apply lookup_delete_eq. Qed.

Lemma serve_disconnect (s : WebSocket) (X : string) (now : Z) (c p r : io)
    (rest : list turn) (w : World) :
  serve s X (mkTurn (RecvRaise WebSocketDisconnect) now c p r :: rest) w
  = (Disconnected, disconnect X w).
Proof. reflexivity. Qed.

(** C1, as stated, fails: alice registers [ws1], then [ws2]; the handler of
    the superseded [ws1] then sees its transport close and deregisters
    "alice", which removes the mapping to [ws2]. *)
Lemma stale_deregister_evicts_newer_session :
  let w1 := snd (connect "alice" ws1 IoOk world0) in
  let w2 := snd (connect "alice" ws2 IoOk w1) in
  lookup_session "alice" w2 = Some ws2 ∧
  lookup_session "alice" (snd (serve ws1 "alice" [turn_disconnect] w2)) ≠ Some ws2.
Proof.
  split.
  - apply lookup_connect.
  - unfold turn_disconnect. rewrite serve_disconnect. simpl.
    rewrite lookup_disconnect. discriminate.
Qed.

(** C1 (amended): after [register(X, s1)] and then [register(X, s2)],
    [lookup(X)] returns [s2]; [deregister(X)] takes the identity alone and
    removes whatever session is mapped, so once the handler of the superseded
    session [s1] deregisters on its disconnect, [lookup(X)] is absent. *)
Theorem register_twice_then_stale_deregister (X : string) (s1 s2 : WebSocket)
    (now : Z) (c p r : io) (w : World) :
  let w1 := snd (connect X s1 IoOk w) in
  let w2 := snd (connect X s2 IoOk w1) in
  let stale := serve s1 X [mkTurn (RecvRaise WebSocketDisconnect) now c p r] w2 in
  lookup_session X w2 = Some s2 ∧
  fst stale = Disconnected ∧
  snd stale = disconnect X w2 ∧
  lookup_session X (snd stale) = None.
Proof.
  intros w1 w2 stale. subst stale. rewrite serve_disconnect. simpl.
  split; [apply lookup_connect|].
  split; [reflexivity|]. split; [reflexivity|]. apply lookup_disconnect.
Qed.

(** ** [send] *)

Lemma send_absent (message : frame) (username : string) (push : io) (w : World) :
  active_connections w !! username = None →
  send_personal_message message username push w = (Return PyNone, w).
Proof. intros H. unfold send_personal_message. rewrite H. reflexivity. Qed.

Lemma send_push_fails (message : frame) (username : string) (e : exn)
    (ws : WebSocket) (w : World) :
  active_connections w !! username = Some ws →
  send_personal_message message username (IoRaise e) w = (Return PyNone, w).
Proof. intros H. unfold send_personal_message. rewrite H. reflexivity. Qed.

Lemma send_push_ok (message : frame) (username : string) (ws : WebSocket)
    (w : World) :
  active_connections w !! username = Some ws →
  send_personal_message message username IoOk w
  = (Return PyNone,
     mkWorld (db w) (active_connections w) (sent w ++ [(ws, message)])).
Proof. intros H. unfold send_personal_message. rewrite H. reflexivity. Qed.

Lemma send_returns_none (message : frame) (username : string) (push : io)
    (w : World) :
  fst (send_personal_message message username push w) = Return PyNone.
Proof.
  unfold send_personal_message.
  destruct (active_connections w !! username); [|reflexivity].
  destruct push; reflexivity.
Qed.

Lemma send_keeps_state (message : frame) (username : string) (push : io)
    (w : World) :
  db (snd (send_personal_message message username push w)) = db w ∧
  active_connections (snd (send_personal_message message username push w))
  = active_connections w.
Proof.
  unfold send_personal_message.
  destruct (active_connections w !! username); [|done].
  destruct push; done.
Qed.

(** C4, as stated, fails: for an identity with no session the call does not
    return the boolean [False]; it returns [None], the same value it returns
    after a push that succeeded. *)
Lemma send_to_absent_is_not_false :
  let m := FromFrame "alice" "hi" "sent" 300 1 in
  let w := snd (connect "bob" ws2 IoOk world0) in
  active_connections world0 !! "carol" = None ∧
  fst (send_personal_message m "carol" IoOk world0) ≠ Return (PyBool false) ∧
  fst (send_personal_message m "carol" IoOk world0)
  = fst (send_personal_message m "bob" IoOk w) ∧
  sent (snd (send_personal_message m "bob" IoOk w)) = [(ws2, m)].
Proof.
  intros m w. split; [reflexivity|].
  rewrite !send_returns_none. split; [discriminate|]. split; [reflexivity|].
  subst w. unfold send_personal_message, connect. simpl.
  rewrite lookup_insert_eq. reflexivity.
Qed.

(** C4 (amended): [send(identity, payload)] returns [None] in every case,
    also after a successful push; it never raises and never touches the
    store or the registry.  For an identity with no registered session it
    pushes nothing and leaves the whole state as it was; when the push to a
    registered session fails, the exception is swallowed, nothing is recorded
    as sent and the identity stays registered. *)
Theorem send_personal_message_spec (message : frame) (username : string)
    (w : World) :
  (∀ push, fst (send_personal_message message username push w) = Return PyNone) ∧
  (∀ push, db (snd (send_personal_message message username push w)) = db w) ∧
  (∀ push, active_connections (snd (send_personal_message message username push w))
           = active_connections w) ∧
  (∀ push, active_connections w !! username = None →
           send_personal_message message username push w = (Return PyNone, w)) ∧
  (∀ e ws, active_connections w !! username = Some ws →
           send_personal_message message username (IoRaise e) w = (Return PyNone, w) ∧
           lookup_session username
             (snd (send_personal_message message username (IoRaise e) w)) = Some ws).
Proof.
  split; [intros; apply send_returns_none|].
  split; [intros; apply send_keeps_state|].
  split; [intros; apply send_keeps_state|].
  split; [intros; by apply send_absent|].
  intros e ws H. rewrite (send_push_fails _ _ _ ws) by done. done.
Qed.

(** The two conditional parts of [send_personal_message_spec] at work: a send
    to the unregistered "carol", and a failing push to the registered "bob". *)
Lemma send_personal_message_spec_witness :
  let m := FromFrame "alice" "hi" "sent" 300 1 in
  let w := snd (connect "bob" ws2 IoOk world0) in
  send_personal_message m "carol" IoOk w = (Return PyNone, w) ∧
  send_personal_message m "bob" (IoRaise RuntimeError) w = (Return PyNone, w).
Proof.
  intros m w.
  destruct (send_personal_message_spec m "carol" w) as (_ & _ & _ & Habs & _).
  destruct (send_personal_message_spec m "bob" w) as (_ & _ & _ & _ & Hfail).
  split.
  - apply Habs. reflexivity.
  - apply (Hfail RuntimeError ws2). subst w. unfold connect. simpl.
    apply lookup_insert_eq.
Defined.

(** ** The per-session loop *)

Lemma nonempty_missing_or_empty (data : gmap string string) (field : string) :
  missing_or_empty data field → nonempty (data !! field) = None.
Proof. intros [H | H]; rewrite H; reflexivity. Qed.

Lemma nonempty_present (v : option string) (s : string) :
  v = Some s → s ≠ "" → nonempty v = Some s.
Proof.
  intros -> Hs. unfold nonempty. rewrite bool_decide_eq_false_2; done.
Qed.

Lemma handle_frame_invalid (ws : WebSocket) (username : string)
    (data : gmap string string) (now : Z) (c p r : io) (w : World) :
  nonempty (data !! "to") = None ∨ nonempty (data !! "content") = None →
  handle_frame ws username (mkTurn (RecvJson data) now c p r) w
  = send_json ws (ErrorFrame "Invalid message format.") r w.
Proof.
  intros H. unfold handle_frame, bind, receive_json. simpl.
  destruct H as [H | H]; rewrite H; [|destruct (nonempty (data !! "to"))];
    reflexivity.
Qed.

Lemma handle_frame_unknown_user (ws : WebSocket) (username to_user content : string)
    (data : gmap string string) (now : Z) (c p r : io) (w : World) :
  nonempty (data !! "to") = Some to_user →
  nonempty (data !! "content") = Some content →
  get_user_by_username (db w) username = None ∨
  get_user_by_username (db w) to_user = None →
  handle_frame ws username (mkTurn (RecvJson data) now c p r) w
  = send_json ws (ErrorFrame "User not found.") r w.
Proof.
  intros Hto Hc H. unfold handle_frame, bind, receive_json. simpl.
  rewrite Hto, Hc.
  destruct H as [H | H]; rewrite H;
    [|destruct (get_user_by_username (db w) username)]; reflexivity.
Qed.

Lemma handle_frame_commit_fails (ws : WebSocket) (username to_user content : string)
    (data : gmap string string) (now : Z) (e : exn) (p r : io) (w : World)
    (sender receiver : User) :
  nonempty (data !! "to") = Some to_user →
  nonempty (data !! "content") = Some content →
  get_user_by_username (db w) username = Some sender →
  get_user_by_username (db w) to_user = Some receiver →
  handle_frame ws username (mkTurn (RecvJson data) now (IoRaise e) p r) w
  = (Raise e, w).
Proof.
  intros Hto Hc Hs Hr. unfold handle_frame, bind, receive_json. simpl.
  rewrite Hto, Hc, Hs, Hr. reflexivity.
Qed.

(** The error replies are written outside any [try]: when the sender's own
    socket refuses one, the exception leaves the loop. *)
Lemma error_reply_refused (ws : WebSocket) (username : string)
    (data : gmap string string) (now : Z) (c p : io) (e : exn)
    (rest : list turn) (w : World) :
  nonempty (data !! "to") = None ∨ nonempty (data !! "content") = None →
  session_loop ws username (mkTurn (RecvJson data) now c p (IoRaise e) :: rest) w
  = (Exited e, w).
Proof. intros H. simpl. by rewrite handle_frame_invalid. Qed.

(** C5: a frame whose [to] or [content] field is missing or empty gets the
    validation error as its reply, stores no message (the store and the
    registry are as before), and the session stays in its receive loop: it
    goes on with the frames that follow, and is [Receiving] when there are
    none.  The reply is the one the transport accepts ([IoOk]). *)
Theorem malformed_frame_rejected (ws : WebSocket) (username : string)
    (data : gmap string string) (now : Z) (c p : io) (rest : list turn)
    (w : World) :
  missing_or_empty data "to" ∨ missing_or_empty data "content" →
  let t := mkTurn (RecvJson data) now c p IoOk in
  let w' := mkWorld (db w) (active_connections w)
                    (sent w ++ [(ws, ErrorFrame "Invalid message format.")]) in
  handle_frame ws username t w = (Return tt, w') ∧
  length (messages (db w')) = length (messages (db w)) ∧
  session_loop ws username (t :: rest) w = session_loop ws username rest w' ∧
  serve ws username [t] w = (Receiving, w').
Proof.
  intros H t w'.
  assert (Hstep : handle_frame ws username t w = (Return tt, w')).
  { subst t. rewrite handle_frame_invalid; [reflexivity|].
    destruct H as [H | H]; [left | right]; by apply nonempty_missing_or_empty. }
  split; [exact Hstep|]. split; [reflexivity|].
  unfold serve. simpl. rewrite Hstep. done.
Qed.

(** The spec's example frame, [{"to": "", "content": "hi"}], sent by alice. *)
Lemma malformed_frame_rejected_witness :
  let t := mkTurn (RecvJson (frame_to "" "hi")) 300 IoOk IoOk IoOk in
  serve ws1 "alice" [t] world0
  = (Receiving, mkWorld db0 ∅ [(ws1, ErrorFrame "Invalid message format.")]).
Proof.
  intros t.
  apply (malformed_frame_rejected ws1 "alice" (frame_to "" "hi") 300 IoOk IoOk []
           world0).
  left. right. reflexivity.
Defined.

(** C6: a well-formed frame (both fields present and non-empty) whose
    recipient or whose sender does not resolve in the credential store gets
    the "User not found." error as its reply, stores no message, leaves the
    store and the registry as they were, and the session stays in its receive
    loop.  The reply is the one the transport accepts ([IoOk]). *)
Theorem unknown_user_rejected (ws : WebSocket) (username to_user content : string)
    (data : gmap string string) (now : Z) (c p : io) (rest : list turn)
    (w : World) :
  data !! "to" = Some to_user → to_user ≠ "" →
  data !! "content" = Some content → content ≠ "" →
  get_user_by_username (db w) username = None ∨
  get_user_by_username (db w) to_user = None →
  let t := mkTurn (RecvJson data) now c p IoOk in
  let w' := mkWorld (db w) (active_connections w)
                    (sent w ++ [(ws, ErrorFrame "User not found.")]) in
  handle_frame ws username t w = (Return tt, w') ∧
  db w' = db w ∧
  active_connections w' = active_connections w ∧
  session_loop ws username (t :: rest) w = session_loop ws username rest w' ∧
  serve ws username [t] w = (Receiving, w').
Proof.
  intros Hto Hto' Hc Hc' H t w'.
  assert (Hstep : handle_frame ws username t w = (Return tt, w')).
  { subst t. rewrite (handle_frame_unknown_user _ _ to_user content);
      auto using nonempty_present. }
  split; [exact Hstep|]. split; [reflexivity|]. split; [reflexivity|].
  unfold serve. simpl. rewrite Hstep. done.
Qed.

(** alice writes to "carol", who has no account. *)
Lemma unknown_user_rejected_witness :
  let t := mkTurn (RecvJson (frame_to "carol" "hi")) 300 IoOk IoOk IoOk in
  serve ws1 "alice" [t] world0
  = (Receiving, mkWorld db0 ∅ [(ws1, ErrorFrame "User not found.")]).
Proof.
  intros t.
  apply (unknown_user_rejected ws1 "alice" "carol" "hi" (frame_to "carol" "hi")
           300 IoOk IoOk [] world0); try done.
  right. reflexivity.
Defined.

(** C3 on the code: when the commit of an inbound message raises, the
    handler leaves its loop with that exception and nothing is stored, but
    the [except WebSocketDisconnect] clause does not apply, so
    [manager.disconnect] is not called and the identity stays registered to
    the dead socket. *)
Theorem persistence_failure_keeps_registration (ws : WebSocket)
    (username to_user content : string) (data : gmap string string) (now : Z)
    (p r : io) (rest : list turn) (w : World) (sender receiver : User) :
  data !! "to" = Some to_user → to_user ≠ "" →
  data !! "content" = Some content → content ≠ "" →
  get_user_by_username (db w) username = Some sender →
  get_user_by_username (db w) to_user = Some receiver →
  let t := mkTurn (RecvJson data) now (IoRaise SQLAlchemyError) p r in
  let end_state := chat_websocket ws username IoOk (t :: rest) w in
  fst end_state = Aborted SQLAlchemyError ∧
  db (snd end_state) = db w ∧
  lookup_session username (snd end_state) = Some ws.
Proof.
  intros Hto Hto' Hc Hc' Hs Hr t end_state. subst end_state t.
  unfold chat_websocket, serve. cbn [connect session_loop].
  rewrite (handle_frame_commit_fails _ _ to_user content _ _ _ _ _ _ sender receiver);
    auto using nonempty_present.
  cbn. split; [done|]. split; [done|]. apply lookup_insert_eq.
Qed.

(** alice connects and writes to bob; the commit fails. *)
Lemma persistence_failure_keeps_registration_witness :
  let end_state :=
    chat_websocket ws1 "alice" IoOk [turn_commit_fails (frame_to "bob" "hi") 300]
      world0 in
  fst end_state = Aborted SQLAlchemyError ∧
  db (snd end_state) = db0 ∧
  lookup_session "alice" (snd end_state) = Some ws1.
Proof.
  apply (persistence_failure_keeps_registration ws1 "alice" "bob" "hi"
           (frame_to "bob" "hi") 300 IoOk IoOk [] world0 alice bob); done.
Defined.

(** ** The credential store *)

Lemma get_user_by_username_Some (d : Db) (username : string) (u : User) :
  get_user_by_username d username = Some u →
  u ∈ users d ∧ user_username u = username.
Proof.
  unfold get_user_by_username. intros H.
  apply head_Some_elem_of, list_elem_of_filter in H. tauto.
Qed.

Lemma get_user_by_id_Some (d : Db) (i : nat) (u : User) :
  get_user_by_id d i = Some u → u ∈ users d ∧ user_id u = i.
Proof.
  unfold get_user_by_id. intros H.
  apply head_Some_elem_of, list_elem_of_filter in H. tauto.
Qed.

Lemma get_user_by_id_is_Some (d : Db) (u : User) :
  u ∈ users d → is_Some (get_user_by_id d (user_id u)).
Proof.
  intros Hu. unfold get_user_by_id. apply head_is_Some.
  intros Hnil.
  assert (Hin : u ∈ filter (λ v, user_id v = user_id u) (users d))
    by (apply list_elem_of_filter; done).
  rewrite Hnil in Hin. by apply not_elem_of_nil in Hin.
Qed.

(** A column without duplicates determines the row. *)
Lemma NoDup_fmap_elem_eq {A B : Type} (f : A → B) (l : list A) (x y : A) :
  NoDup (f <$> l) → x ∈ l → y ∈ l → f x = f y → x = y.
Proof.
  induction l as [|a l IH]; intros Hnd Hx Hy Hf.
  - by apply not_elem_of_nil in Hx.
  - rewrite fmap_cons in Hnd. apply NoDup_cons in Hnd as [Ha Hnd].
    apply elem_of_cons in Hx as [-> | Hx]; apply elem_of_cons in Hy as [-> | Hy].
    + done.
    + exfalso. apply Ha. rewrite Hf. by apply list_elem_of_fmap_2.
    + exfalso. apply Ha. rewrite <- Hf. by apply list_elem_of_fmap_2.
    + by apply IH.
Qed.

(** Under the table's constraints, a foreign key equals the key of the user
    called [A] exactly when it stands for the name [A]. *)
Lemma id_names_user (d : Db) (A : string) (a : User) (i : nat) :
  users_wf d →
  get_user_by_username d A = Some a →
  i = user_id a ↔ user_username <$> get_user_by_id d i = Some A.
Proof.
  intros [Hid Hname] Ha. apply get_user_by_username_Some in Ha as [Ha HA].
  split.
  - intros ->. destruct (get_user_by_id_is_Some d a Ha) as [u Hu].
    rewrite Hu. simpl. f_equal.
    apply get_user_by_id_Some in Hu as [Hu Hi].
    by rewrite (NoDup_fmap_elem_eq user_id (users d) u a).
  - intros H. destruct (get_user_by_id d i) as [u|] eqn:Hu; [|done].
    simpl in H. injection H as H.
    apply get_user_by_id_Some in Hu as [Hu Hi].
    rewrite <- Hi. f_equal.
    apply (NoDup_fmap_elem_eq user_username (users d)); congruence.
Qed.

(** C10: registering a username that the credential store already holds
    raises HTTP 400 "Username already registered" and gives back the store
    unchanged: no record is added and no stored hash is touched. *)
Theorem register_existing_username (pwd_hash : string → string → outcome string)
    (user : UserCreate) (salt : string) (now : Z) (d : Db) (existing : User) :
  get_user_by_username d (uc_username user) = Some existing →
  register pwd_hash user salt now d
  = (Raise (HTTPException 400 "Username already registered"), d).
Proof. intros H. unfold register. rewrite H. reflexivity. Qed.

(** A second registration of "alice", with another password. *)
Lemma register_existing_username_witness :
  register hash0 (mkUserCreate "alice" "other") "na" 500 db0
  = (Raise (HTTPException 400 "Username already registered"), db0).
Proof.
  apply (register_existing_username hash0 (mkUserCreate "alice" "other") "na" 500
           db0 alice).
  reflexivity.
Defined.

(** ** Conversation retrieval *)

(** C8: when at least one of the two identities is unknown, [get_history]
    answers with the empty sequence and raises nothing. *)
Theorem get_messages_unknown_identity (A B : string) (d : Db) :
  get_user_by_username d A = None ∨ get_user_by_username d B = None →
  get_messages A B d = Return [].
Proof.
  intros [H | H]; unfold get_messages; rewrite H; [done|].
  by destruct (get_user_by_username d A).
Qed.

(** "carol" has no account; alice and bob have exchanged messages. *)
Lemma get_messages_unknown_identity_witness :
  get_messages "alice" "carol" db1 = Return [].
Proof.
  apply (get_messages_unknown_identity "alice" "carol" db1).
  right. reflexivity.
Defined.

Lemma between_conversation (d : Db) (A B : string) (a b : User) (m : Message) :
  users_wf d →
  get_user_by_username d A = Some a →
  get_user_by_username d B = Some b →
  between a b m ↔ conversation d A B m.
Proof.
  intros Hwf Ha Hb. unfold between, conversation, sender_name, receiver_name.
  rewrite <- !(id_names_user d A a) by done.
  rewrite <- !(id_names_user d B b) by done.
  reflexivity.
Qed.

Lemma render_row_of (d : Db) (A B : string) (a b : User) (m : Message) :
  users_wf d →
  get_user_by_username d A = Some a →
  get_user_by_username d B = Some b →
  between a b m →
  render A B a m = row_of d m.
Proof.
  intros Hwf Ha Hb Hm. unfold render, row_of, sender_name, receiver_name.
  pose proof (id_names_user d A a (msg_sender_id m) Hwf Ha) as HsA.
  pose proof (id_names_user d B b (msg_sender_id m) Hwf Hb) as HsB.
  pose proof (id_names_user d A a (msg_receiver_id m) Hwf Ha) as HrA.
  pose proof (id_names_user d B b (msg_receiver_id m) Hwf Hb) as HrB.
  case_bool_decide as Hs.
  - apply HsA in Hs as Hs'. rewrite Hs'. simpl.
    destruct Hm as [[_ Hr] | [Hs2 Hr]].
    + apply HrB in Hr. rewrite Hr. reflexivity.
    + apply HsB in Hs2. rewrite Hs2 in Hs'. injection Hs' as ->.
      apply HrA in Hr. rewrite Hr. reflexivity.
  - destruct Hm as [[Hs2 _] | [Hs2 Hr]]; [done|].
    apply HsB in Hs2. apply HrA in Hr. rewrite Hs2, Hr. reflexivity.
Qed.

(** C7: when [A] and [B] both resolve, [get_history(A, B)] is the list of
    entries of some arrangement [ms] of exactly the stored messages whose
    sender and receiver are [A] and [B] in either direction (each as often
    as it is stored), every entry naming the message's true sender and
    receiver, and [ms] ascends in timestamp.  The store satisfies the
    constraints of its table definition. *)
Theorem get_messages_history (A B : string) (d : Db) (a b : User) :
  users_wf d →
  get_user_by_username d A = Some a →
  get_user_by_username d B = Some b →
  ∃ ms : list Message,
    get_messages A B d = Return (row_of d <$> ms) ∧
    ms ≡ₚ filter (conversation d A B) (messages d) ∧
    StronglySorted (λ m1 m2, (msg_timestamp m1 ≤ msg_timestamp m2)%Z) ms ∧
    StronglySorted (λ r1 r2, (row_timestamp r1 ≤ row_timestamp r2)%Z)
                   (row_of d <$> ms).
Proof.
  intros Hwf Ha Hb.
  set (ms := order_by_timestamp (filter (between a b) (messages d))).
  assert (Hperm : ms ≡ₚ filter (between a b) (messages d))
    by apply merge_sort_Permutation.
  assert (Hsorted : StronglySorted earlier ms)
    by apply (StronglySorted_merge_sort earlier).
  exists ms. split; [|split; [|split]].
  - unfold get_messages. rewrite Ha, Hb. fold ms. f_equal.
    apply Forall_fmap_ext_1, Forall_forall. intros m Hm.
    apply (render_row_of d A B a b); try done.
    rewrite Hperm in Hm. apply list_elem_of_filter in Hm. tauto.
  - rewrite Hperm.
    rewrite (list_filter_iff (between a b) (conversation d A B)); [done|].
    intros m. by apply between_conversation.
  - exact Hsorted.
  - apply (StronglySorted_fmap (row_of d) earlier); [|exact Hsorted]. done.
Qed.

(** The conversation of alice and bob in [db1]: the note alice wrote to
    herself is left out, and the reply of time 200 precedes the message of
    time 300. *)
Lemma get_messages_history_witness :
  ∃ ms : list Message,
    get_messages "alice" "bob" db1 = Return (row_of db1 <$> ms) ∧
    ms ≡ₚ filter (conversation db1 "alice" "bob") (messages db1) ∧
    StronglySorted (λ m1 m2, (msg_timestamp m1 ≤ msg_timestamp m2)%Z) ms ∧
    StronglySorted (λ r1 r2, (row_timestamp r1 ≤ row_timestamp r2)%Z)
                   (row_of db1 <$> ms).
Proof.
  apply (get_messages_history "alice" "bob" db1 alice bob).
  - split; by apply (bool_decide_unpack _).
  - reflexivity.
  - reflexivity.
Defined.

Example get_messages_alice_bob :
  get_messages "alice" "bob" db1
  = Return [mkRow 2 "bob" "alice" "yo" "sent" 200;
            mkRow 1 "alice" "bob" "hi" "sent" 300].
Proof. vm_compute. reflexivity. Qed.

(** ** Token service *)

Lemma validate_time_Raise (int_of_str : string → option Z) (v : option claim)
    (ok : Z → bool) (e : exn) :
  validate_time int_of_str v ok = Raise e → e = JWTError.
Proof.
  unfold validate_time, py_int. intros H.
  repeat (case_match; simplify_eq); done.
Qed.

Lemma validate_claims_Raise (int_of_str : string → option Z)
    (claims : gmap string claim) (now : Z) (e : exn) :
  validate_claims int_of_str claims now = Raise e → e = JWTError.
Proof.
  unfold validate_claims, then_, validate_str, validate_absent. intros H.
  repeat match type of H with
  | context [validate_time ?i ?v ?ok] =>
      let Hv := fresh "Hv" in
      destruct (validate_time i v ok) as [[]|e'] eqn:Hv;
        [|apply validate_time_Raise in Hv; congruence]
  end.
  repeat (case_match; simplify_eq); done.
Qed.

Lemma jwt_decode_Raise (int_of_str : string → option Z) (tok : token)
    (key : string) (algorithms : list string) (now : Z) (e : exn) :
  jwt_decode int_of_str tok key algorithms now = Raise e → e = JWTError.
Proof.
  unfold jwt_decode. intros H.
  destruct tok as [raw | alg k claims]; [congruence|].
  destruct (_ && _); [|congruence].
  destruct (validate_claims int_of_str claims now) as [[]|e'] eqn:Hv; [done|].
  apply validate_claims_Raise in Hv. congruence.
Qed.

Lemma jwt_decode_Return (int_of_str : string → option Z) (tok : token)
    (key : string) (algorithms : list string) (now : Z)
    (payload : gmap string claim) :
  jwt_decode int_of_str tok key algorithms now = Return payload →
  ∃ alg, tok = Signed alg key payload.
Proof.
  unfold jwt_decode. intros H.
  destruct tok as [raw | alg k claims]; [done|].
  destruct (bool_decide (alg ∈ algorithms)); [|done].
  case_bool_decide; [|done]. subst k. exists alg.
  repeat (case_match; simplify_eq); done.
Qed.

Lemma refresh_token_wrong_marker (SECRET_KEY : string)
    (int_of_str : string → option Z) (tok : token) (now : Z) (d : Db) :
  type_marker tok ≠ Some (CStr "refresh") →
  ∃ detail, refresh_token SECRET_KEY int_of_str tok now d
            = Raise (HTTPException 401 detail).
Proof.
  intros Hm. unfold refresh_token, decode_refresh.
  destruct (jwt_decode int_of_str tok SECRET_KEY [ALGORITHM] now)
    as [payload | e] eqn:Hd.
  - apply jwt_decode_Return in Hd as [alg ->]. simpl in Hm.
    rewrite bool_decide_eq_true_2 by done. eauto.
  - apply jwt_decode_Raise in Hd as ->. eauto.
Qed.

Lemma access_token_no_marker (SECRET_KEY X : string) (delta : option Z) (t0 : Z) :
  type_marker (create_access_token SECRET_KEY {["sub" := CStr X]} delta t0) = None.
Proof.
  unfold create_access_token, jwt_encode, type_marker.
  rewrite lookup_insert_ne by done. by rewrite lookup_singleton_ne.
Qed.

Lemma algorithm_accepted : bool_decide (ALGORITHM ∈ [ALGORITHM]) = true.
Proof. apply bool_decide_eq_true_2. set_solver. Qed.

(** Decoding a token that carries, of the claims jose looks at, a numeric
    [exp] and a string [sub] and nothing else: only the expiry decides. *)
Lemma jwt_decode_issued (int_of_str : string → option Z) (key : string)
    (claims : gmap string claim) (exp : Z) (X : string) (now : Z) :
  claims !! "iat" = None → claims !! "nbf" = None →
  claims !! "exp" = Some (CNum exp) → claims !! "aud" = None →
  claims !! "sub" = Some (CStr X) → claims !! "jti" = None →
  claims !! "at_hash" = None →
  jwt_decode int_of_str (Signed ALGORITHM key claims) key [ALGORITHM] now
  = if (exp <? now)%Z then Raise JWTError else Return claims.
Proof.
  intros Hiat Hnbf Hexp Haud Hsub Hjti Hat. unfold jwt_decode.
  rewrite algorithm_accepted, bool_decide_eq_true_2 by done. simpl.
  unfold validate_claims. rewrite Hiat, Hnbf, Hexp, Haud, Hsub, Hjti, Hat. simpl.
  by destruct (exp <? now)%Z.
Qed.

Lemma jwt_decode_refresh_token (SECRET_KEY : string)
    (int_of_str : string → option Z) (X : string) (t0 now : Z) :
  jwt_decode int_of_str (create_refresh_token SECRET_KEY {["sub" := CStr X]} t0)
    SECRET_KEY [ALGORITHM] now
  = if (t0 + days REFRESH_TOKEN_EXPIRE_DAYS <? now)%Z then Raise JWTError
    else Return (<["type" := CStr "refresh"]>
                   (<["exp" := CNum (t0 + days REFRESH_TOKEN_EXPIRE_DAYS)]>
                      {["sub" := CStr X]})).
Proof.
  unfold create_refresh_token, jwt_encode.
  by apply (jwt_decode_issued _ _ _ _ X).
Qed.

Lemma jwt_decode_access_token (SECRET_KEY : string)
    (int_of_str : string → option Z) (X : string) (delta t0 now : Z) :
  jwt_decode int_of_str
    (jwt_encode (<["exp" := CNum (t0 + delta)]> {["sub" := CStr X]})
       SECRET_KEY ALGORITHM)
    SECRET_KEY [ALGORITHM] now
  = if (t0 + delta <? now)%Z then Raise JWTError
    else Return (<["exp" := CNum (t0 + delta)]> {["sub" := CStr X]}).
Proof. unfold jwt_encode. by apply (jwt_decode_issued _ _ _ _ X). Qed.

Lemma decode_refresh_created (SECRET_KEY : string)
    (int_of_str : string → option Z) (X : string) (t0 now : Z) :
  (now ≤ t0 + days REFRESH_TOKEN_EXPIRE_DAYS)%Z →
  decode_refresh SECRET_KEY int_of_str
    (create_refresh_token SECRET_KEY {["sub" := CStr X]} t0) now
  = Return (CStr X).
Proof.
  intros Ht. unfold decode_refresh. rewrite jwt_decode_refresh_token.
  rewrite (proj2 (Z.ltb_ge _ _)) by lia.
  rewrite lookup_insert_eq, bool_decide_eq_false_2 by (intros H; by apply H).
  rewrite !lookup_insert_ne by done. by rewrite lookup_singleton_eq.
Qed.

Lemma validate_created_access (SECRET_KEY : string)
    (int_of_str : string → option Z) (X : string) (t0 now : Z) :
  (now ≤ t0 + minutes ACCESS_TOKEN_EXPIRE_MINUTES)%Z →
  validate SECRET_KEY int_of_str
    (create_access_token SECRET_KEY {["sub" := CStr X]} None t0) now
  = Return (CStr X).
Proof.
  intros Ht. unfold validate, create_access_token.
  rewrite jwt_decode_access_token.
  rewrite (proj2 (Z.ltb_ge _ _)) by lia.
  rewrite lookup_insert_ne by done. by rewrite lookup_singleton_eq.
Qed.

Lemma login_Return (SECRET_KEY : string)
    (pwd_verify : string → string → outcome bool)
    (X password : string) (t0 : Z) (d0 : Db) (issued : Token) :
  login SECRET_KEY pwd_verify X password t0 d0 = Return issued →
  is_Some (get_user_by_username d0 X) ∧
  tok_refresh_token issued
  = create_refresh_token SECRET_KEY {["sub" := CStr X]} t0.
Proof.
  unfold login. intros H.
  destruct (get_user_by_username d0 X) as [u|] eqn:Hu; [|done].
  apply get_user_by_username_Some in Hu as [_ <-].
  destruct (verify_password _ _ _) as [[|]|e]; [|done..].
  injection H as <-. eauto.
Qed.

Lemma refresh_token_Return (SECRET_KEY : string)
    (int_of_str : string → option Z) (tok : token) (X : string)
    (t0 : Z) (d0 : Db) (issued : Token) :
  decode_refresh SECRET_KEY int_of_str tok t0 = Return (CStr X) →
  refresh_token SECRET_KEY int_of_str tok t0 d0 = Return issued →
  is_Some (get_user_by_username d0 X) ∧
  issued = mkToken (create_access_token SECRET_KEY {["sub" := CStr X]} None t0)
                   (create_refresh_token SECRET_KEY {["sub" := CStr X]} t0)
                   "bearer".
Proof.
  unfold refresh_token. intros -> H. simpl in H.
  destruct (get_user_by_username d0 X) as [u|] eqn:Hu; [|done].
  apply get_user_by_username_Some in Hu as [_ <-].
  injection H as <-. eauto.
Qed.

(** The credential store only grows, at its end: a name that resolves keeps
    resolving, to the same record. *)
Lemma evolves_keeps_user (pwd_hash : string → string → outcome string)
    (d0 d : Db) (X : string) (u : User) :
  evolves pwd_hash d0 d →
  get_user_by_username d0 X = Some u →
  get_user_by_username d X = Some u.
Proof.
  intros Hev Hu. induction Hev as [d | d d' user salt now Hev IH | d d' m Hev IH].
  - done.
  - specialize (IH Hu). unfold register.
    destruct (get_user_by_username d' (uc_username user)); [done|].
    destruct (get_password_hash _ _ _); [|done]. simpl.
    unfold get_user_by_username, add_user in *. simpl.
    rewrite filter_app, head_app, IH. done.
  - by apply IH.
Qed.

Lemma issued_for_facts (SECRET_KEY : string) (int_of_str : string → option Z)
    (pwd_verify : string → string → outcome bool)
    (X : string) (t0 : Z) (d0 : Db) (issued : Token) :
  issued_for SECRET_KEY int_of_str pwd_verify X t0 d0 issued →
  is_Some (get_user_by_username d0 X) ∧
  tok_refresh_token issued
  = create_refresh_token SECRET_KEY {["sub" := CStr X]} t0.
Proof.
  intros [password H | tok Hd H].
  - by apply (login_Return _ pwd_verify _ password).
  - destruct (refresh_token_Return _ _ _ _ _ _ _ Hd H) as [? ->]. done.
Qed.

Lemma rotation_of_issued (SECRET_KEY : string) (int_of_str : string → option Z)
    (pwd_hash : string → string → outcome string)
    (pwd_verify : string → string → outcome bool)
    (X : string) (t0 now : Z) (d0 d : Db) (issued : Token) :
  issued_for SECRET_KEY int_of_str pwd_verify X t0 d0 issued →
  evolves pwd_hash d0 d →
  (now ≤ t0 + days REFRESH_TOKEN_EXPIRE_DAYS)%Z →
  refresh_token SECRET_KEY int_of_str (tok_refresh_token issued) now d
  = Return (mkToken (create_access_token SECRET_KEY {["sub" := CStr X]} None now)
                    (create_refresh_token SECRET_KEY {["sub" := CStr X]} now)
                    "bearer").
Proof.
  intros Hi Hev Ht. apply issued_for_facts in Hi as [[u Hu] ->].
  unfold refresh_token. rewrite decode_refresh_created by done. simpl.
  rewrite (evolves_keeps_user pwd_hash d0 d X u) by done.
  apply get_user_by_username_Some in Hu as [_ ->]. done.
Qed.

(** C9: rotation answers 401 to every token whose type marker is not
    [refresh], so to every access token, which carries no marker; and for a
    refresh token issued for [X] (by [login] or by an earlier rotation) that
    has not expired, on the store as it has grown since, rotation succeeds
    with a new pair: the access token validates to [X] for its thirty minutes
    and the refresh token passes refresh validation with subject [X] for its
    seven days. *)
Theorem token_rotation (SECRET_KEY : string) (int_of_str : string → option Z)
    (pwd_hash : string → string → outcome string)
    (pwd_verify : string → string → outcome bool) :
  (∀ tok now d,
     type_marker tok ≠ Some (CStr "refresh") →
     ∃ detail, refresh_token SECRET_KEY int_of_str tok now d
               = Raise (HTTPException 401 detail)) ∧
  (∀ X delta t0 now d,
     ∃ detail,
       refresh_token SECRET_KEY int_of_str
         (create_access_token SECRET_KEY {["sub" := CStr X]} delta t0) now d
       = Raise (HTTPException 401 detail)) ∧
  (∀ X t0 now d0 d issued,
     issued_for SECRET_KEY int_of_str pwd_verify X t0 d0 issued →
     evolves pwd_hash d0 d →
     (now ≤ t0 + days REFRESH_TOKEN_EXPIRE_DAYS)%Z →
     ∃ rotated,
       refresh_token SECRET_KEY int_of_str (tok_refresh_token issued) now d
       = Return rotated ∧
       (∀ t, (t ≤ now + minutes ACCESS_TOKEN_EXPIRE_MINUTES)%Z →
             validate SECRET_KEY int_of_str (tok_access_token rotated) t
             = Return (CStr X)) ∧
       (∀ t, (t ≤ now + days REFRESH_TOKEN_EXPIRE_DAYS)%Z →
             decode_refresh SECRET_KEY int_of_str (tok_refresh_token rotated) t
             = Return (CStr X))).
Proof.
  split; [|split].
  - intros tok now d. apply refresh_token_wrong_marker.
  - intros X delta t0 now d. apply refresh_token_wrong_marker.
    by rewrite access_token_no_marker.
  - intros X t0 now d0 d issued Hi Hev Ht. eexists. split; [|split].
    + by apply (rotation_of_issued _ _ pwd_hash pwd_verify X t0 now d0 d).
    + intros t Hle. simpl. by apply validate_created_access.
    + intros t Hle. simpl. by apply decode_refresh_created.
Qed.

(** alice logs in at time 1000; at time 2000, after "carol" has registered,
    she rotates her refresh token.  Her access token of time 1000 is turned
    down. *)
Lemma token_rotation_witness :
  let issued :=
    mkToken (create_access_token key0 {["sub" := CStr "alice"]} None 1000)
            (create_refresh_token key0 {["sub" := CStr "alice"]} 1000) "bearer" in
  let d := snd (register hash0 (mkUserCreate "carol" "pw") "na" 1500 db0) in
  (∃ detail, refresh_token key0 int0 (tok_access_token issued) 2000 d
             = Raise (HTTPException 401 detail)) ∧
  ∃ rotated,
    refresh_token key0 int0 (tok_refresh_token issued) 2000 d = Return rotated ∧
    validate key0 int0 (tok_access_token rotated) 2000 = Return (CStr "alice") ∧
    decode_refresh key0 int0 (tok_refresh_token rotated) 2000
    = Return (CStr "alice").
Proof.
  intros issued d.
  destruct (token_rotation key0 int0 hash0 verify0) as (Hmarker & _ & Hrot).
  split.
  - apply Hmarker. vm_compute. discriminate.
  - destruct (Hrot "alice" 1000%Z 2000%Z db0 d issued) as (rotated & Hr & Ha & Hf).
    + apply (issued_by_login _ _ _ _ _ _ _ "wonderland"). vm_compute. reflexivity.
    + apply evolves_register, evolves_refl.
    + vm_compute. discriminate.
    + exists rotated. split; [exact Hr|]. split.
      * apply Ha. vm_compute. discriminate.
      * apply Hf. vm_compute. discriminate.
Defined.

(** The decoder follows jose on claims the code itself never writes: a
    string [exp] goes through [int] (here the decimal stand-in), a token
    with a numeric [sub], a future [nbf] or an [aud] claim is refused. *)
Example jwt_decode_foreign_claims :
  let good := <["type" := CStr "refresh"]>
                (<["exp" := CStr "9999999999"]> {["sub" := CStr "alice"]}) in
  refresh_token key0 int0 (Signed "HS256" key0 good) 2000 db0
  = Return (mkToken (create_access_token key0 {["sub" := CStr "alice"]} None 2000)
                    (create_refresh_token key0 {["sub" := CStr "alice"]} 2000)
                    "bearer") ∧
  jwt_decode int0 (Signed "HS256" key0 (<["exp" := CStr "soon"]> good))
    key0 ["HS256"] 2000 = Raise JWTError ∧
  jwt_decode int0 (Signed "HS256" key0 (<["sub" := CNum 7]> good))
    key0 ["HS256"] 2000 = Raise JWTError ∧
  jwt_decode int0 (Signed "HS256" key0 (<["nbf" := CNum 2001]> good))
    key0 ["HS256"] 2000 = Raise JWTError ∧
  jwt_decode int0 (Signed "HS256" key0 (<["nbf" := CNum 2000]> good))
    key0 ["HS256"] 2000 = Return (<["nbf" := CNum 2000]> good) ∧
  jwt_decode int0 (Signed "HS256" key0 (<["aud" := CStr "web"]> good))
    key0 ["HS256"] 2000 = Raise JWTError ∧
  jwt_decode int0 (Signed "HS256" key0 (<["iss" := CStr "else"]> good))
    key0 ["HS256"] 2000 = Return (<["iss" := CStr "else"]> good).
Proof. vm_compute. repeat split. Qed.

(** ** The authorization gate *)

Lemma refresh_token_rejects_invalid (SECRET_KEY : string)
    (int_of_str : string → option Z) (tok : token) (now : Z) (d : Db) :
  validate SECRET_KEY int_of_str tok now = Raise JWTError →
  ∃ detail, refresh_token SECRET_KEY int_of_str tok now d
            = Raise (HTTPException 401 detail).
Proof.
  unfold validate, refresh_token, decode_refresh. intros H.
  destruct (jwt_decode int_of_str tok SECRET_KEY [ALGORITHM] now)
    as [payload | e'] eqn:Hd.
  - case_bool_decide; [eauto|].
    destruct (payload !! "sub"); [done|eauto].
  - injection H as ->. eauto.
Qed.

(** A token that does not carry the server's key under [HS256] never
    validates. *)
Lemma validate_foreign_token (SECRET_KEY : string)
    (int_of_str : string → option Z) (tok : token) (now : Z) :
  (∀ claims, tok ≠ Signed ALGORITHM SECRET_KEY claims) →
  validate SECRET_KEY int_of_str tok now = Raise JWTError.
Proof.
  intros Hforeign. unfold validate, jwt_decode.
  destruct tok as [raw | alg k claims]; [done|].
  case_bool_decide as Halg; [|done]. case_bool_decide as Hk; [|done]. exfalso.
  apply list_elem_of_singleton in Halg as ->. subst k. by apply (Hforeign claims).
Qed.

Lemma send_json_erase (ws : WebSocket) (message : frame) (r : io) (w : World) :
  send_json (erase_token ws) message r (erase_tokens w)
  = (fst (send_json ws message r w), erase_tokens (snd (send_json ws message r w))).
Proof.
  destruct r; [|done]. unfold send_json, erase_tokens. simpl.
  by rewrite fmap_app.
Qed.

Lemma try_log_send_json_erase (ws : WebSocket) (message : frame) (r : io)
    (w : World) :
  try_log (send_json (erase_token ws) message r) (erase_tokens w)
  = (fst (try_log (send_json ws message r) w),
     erase_tokens (snd (try_log (send_json ws message r) w))).
Proof.
  unfold try_log. rewrite send_json_erase.
  destruct (send_json ws message r w) as [[a | e] w']; done.
Qed.

Lemma send_personal_message_erase (message : frame) (username : string)
    (push : io) (w : World) :
  send_personal_message message username push (erase_tokens w)
  = (fst (send_personal_message message username push w),
     erase_tokens (snd (send_personal_message message username push w))).
Proof.
  unfold send_personal_message. simpl. rewrite lookup_fmap.
  destruct (active_connections w !! username) as [ws|]; [|done]. simpl.
  unfold bind, ret. rewrite (try_log_send_json_erase ws).
  destruct (try_log (send_json ws message push) w) as [[a | e] w']; done.
Qed.

Lemma persist_erase (sender_id receiver_id : nat) (content status : string)
    (now : Z) (commit : io) (w : World) :
  persist sender_id receiver_id content status now commit (erase_tokens w)
  = (fst (persist sender_id receiver_id content status now commit w),
     erase_tokens (snd (persist sender_id receiver_id content status now commit w))).
Proof. destruct commit; done. Qed.

Lemma handle_frame_erase (ws : WebSocket) (username : string) (t : turn)
    (w : World) :
  handle_frame (erase_token ws) username t (erase_tokens w)
  = (fst (handle_frame ws username t w),
     erase_tokens (snd (handle_frame ws username t w))).
Proof.
  unfold handle_frame, bind, receive_json.
  destruct (t_recv t) as [data | e]; [|done].
  destruct (nonempty (data !! "to")) as [to_user|];
    [|apply send_json_erase].
  destruct (nonempty (data !! "content")) as [content|];
    [|apply send_json_erase].
  change (db (erase_tokens w)) with (db w).
  destruct (get_user_by_username (db w) username) as [sender|];
    [|apply send_json_erase].
  destruct (get_user_by_username (db w) to_user) as [receiver|];
    [|apply send_json_erase].
  rewrite persist_erase.
  destruct (persist _ _ _ _ _ _ w) as [[msg | e] w1]; [|done]. simpl.
  rewrite send_personal_message_erase.
  destruct (send_personal_message _ _ _ w1) as [[v | e] w2]; [|done]. simpl.
  apply try_log_send_json_erase.
Qed.

Lemma session_loop_erase (ws : WebSocket) (username : string)
    (turns : list turn) (w : World) :
  session_loop (erase_token ws) username turns (erase_tokens w)
  = (fst (session_loop ws username turns w),
     erase_tokens (snd (session_loop ws username turns w))).
Proof.
  revert w. induction turns as [|t rest IH]; intros w; [done|].
  simpl. rewrite handle_frame_erase.
  destruct (handle_frame ws username t w) as [[a | e] w']; simpl; [apply IH|done].
Qed.

Lemma disconnect_erase (username : string) (w : World) :
  disconnect username (erase_tokens w) = erase_tokens (disconnect username w).
Proof. unfold disconnect, erase_tokens. simpl. by rewrite fmap_delete. Qed.

Lemma serve_erase (ws : WebSocket) (username : string) (turns : list turn)
    (w : World) :
  serve (erase_token ws) username turns (erase_tokens w)
  = (fst (serve ws username turns w),
     erase_tokens (snd (serve ws username turns w))).
Proof.
  unfold serve. rewrite session_loop_erase.
  destruct (session_loop ws username turns w) as [[|e] w']; [done|].
  destruct e; simpl; by rewrite ?disconnect_erase.
Qed.

Lemma chat_websocket_erase (ws : WebSocket) (username : string) (accept : io)
    (turns : list turn) (w : World) :
  chat_websocket (erase_token ws) username accept turns (erase_tokens w)
  = (fst (chat_websocket ws username accept turns w),
     erase_tokens (snd (chat_websocket ws username accept turns w))).
Proof.
  unfold chat_websocket, connect. destruct accept; [|done].
  rewrite <- serve_erase. f_equal.
  unfold erase_tokens. simpl. by rewrite fmap_insert.
Qed.

(** C2, as stated, fails: a socket whose handshake carries a malformed token
    is accepted under the name "alice", its frame is stored and pushed to
    bob. *)
Lemma invalid_token_session_is_served :
  let w := snd (connect "bob" ws2 IoOk world0) in
  let r := chat_websocket ws_bad "alice" IoOk
             [turn_ok (frame_to "bob" "hi") 300] w in
  ws_token ws_bad = Some (Malformed "not-a-jwt") ∧
  validate key0 int0 (Malformed "not-a-jwt") 300 = Raise JWTError ∧
  fst r = Receiving ∧
  lookup_session "alice" (snd r) = Some ws_bad ∧
  messages (db (snd r)) = [mkMessage 1 1 2 "hi" "sent" 300] ∧
  sent (snd r) = [(ws2, FromFrame "alice" "hi" "sent" 300 1);
                  (ws_bad, ToFrame "bob" "hi" "sent" 300 1)].
Proof. vm_compute. repeat split. Qed.

(** C2 (amended): the only request that presents a token to this code is
    token rotation, and a rotation whose token fails validation (jose
    refuses it, or it has no subject) is answered with 401; that is so for
    every token that does not carry the server's key under HS256.  The duplex
    session endpoint validates nothing: a connection is registered under the
    identity of its path whatever token its handshake carries, and from then
    on the handler does what it would do had no token been presented: same
    session status, same store, same registered identities, same frames
    sent. *)
Theorem token_gate (SECRET_KEY : string) (int_of_str : string → option Z) :
  (∀ tok now d,
     validate SECRET_KEY int_of_str tok now = Raise JWTError →
     ∃ detail, refresh_token SECRET_KEY int_of_str tok now d
               = Raise (HTTPException 401 detail)) ∧
  (∀ tok now d,
     (∀ claims, tok ≠ Signed ALGORITHM SECRET_KEY claims) →
     ∃ detail, refresh_token SECRET_KEY int_of_str tok now d
               = Raise (HTTPException 401 detail)) ∧
  (∀ ws username w,
     lookup_session username (snd (connect username ws IoOk w)) = Some ws) ∧
  (∀ ws username accept turns w,
     chat_websocket (erase_token ws) username accept turns (erase_tokens w)
     = (fst (chat_websocket ws username accept turns w),
        erase_tokens (snd (chat_websocket ws username accept turns w)))).
Proof.
  split; [|split; [|split]].
  - intros tok now d. apply refresh_token_rejects_invalid.
  - intros tok now d Hforeign. apply refresh_token_rejects_invalid.
    by apply validate_foreign_token.
  - intros ws username w. apply lookup_connect.
  - apply chat_websocket_erase.
Qed.

(** A rotation request with a malformed token, one with a token signed with
    another key, and one with alice's token after it has expired. *)
Lemma token_gate_witness :
  (∃ detail, refresh_token key0 int0 (Malformed "not-a-jwt") 300 db0
             = Raise (HTTPException 401 detail)) ∧
  (∃ detail,
     refresh_token key0 int0
       (create_refresh_token "guess" {["sub" := CStr "alice"]} 0) 300 db0
     = Raise (HTTPException 401 detail)) ∧
  (∃ detail,
     refresh_token key0 int0
       (create_refresh_token key0 {["sub" := CStr "alice"]} 0) (days 8) db0
     = Raise (HTTPException 401 detail)).
Proof.
  destruct (token_gate key0 int0) as (Hgate & Hforeign & _ & _).
  split; [|split].
  - apply Hgate. reflexivity.
  - apply Hforeign. intros claims. vm_compute. congruence.
  - apply Hgate. vm_compute. reflexivity.
Defined.

(** * Further properties of the code *)

(** ** Registration and the credential store *)

Lemma fresh_id_gt (ids : list nat) (i : nat) : i ∈ ids → i < fresh_id ids.
Proof.
  unfold fresh_id. induction ids as [|j ids IH]; intros Hi.
  - by apply not_elem_of_nil in Hi.
  - apply elem_of_cons in Hi as [-> | Hi]; simpl; [lia|].
    specialize (IH Hi). lia.
Qed.

Lemma fresh_id_not_elem_of (ids : list nat) : fresh_id ids ∉ ids.
Proof. intros H. apply fresh_id_gt in H. lia. Qed.

Lemma get_user_by_username_None (d : Db) (username : string) :
  get_user_by_username d username = None ↔
  username ∉ user_username <$> users d.
Proof.
  unfold get_user_by_username. rewrite head_None. split.
  - intros Hnil Hin. apply list_elem_of_fmap in Hin as (u & -> & Hu).
    by apply (filter_nil_not_elem_of _ _ u Hnil).
  - intros Hnot.
    destruct (filter _ (users d)) as [|u l] eqn:Hf; [done|]. exfalso.
    assert (Hu : u ∈ filter (λ v, user_username v = username) (users d))
      by (rewrite Hf; left).
    apply list_elem_of_filter in Hu as [<- Hu].
    by apply Hnot, list_elem_of_fmap_2.
Qed.




(** A password the hash context refuses: [register] leaves with the
    context's exception and the store is as it was. *)
Example register_refused_password :
  register hash0 (mkUserCreate "carol" (String Ascii.zero "pw")) "na" 500 db0
  = (Raise ValueError, db0).
Proof. reflexivity. Qed.

(** X2: registration keeps the constraints of the [users] table, on both of
    its paths: keys stay distinct and usernames stay unique. *)
Theorem register_keeps_users_wf (pwd_hash : string → string → outcome string)
    (user : UserCreate) (salt : string) (now : Z) (d : Db) :
  users_wf d →
  users_wf (snd (register pwd_hash user salt now d)).
Proof.
  intros [Hid Hname]. unfold register.
  destruct (get_user_by_username d (uc_username user)) eqn:Hu; [done|].
  destruct (get_password_hash pwd_hash salt (uc_password user)); [|done].
  apply get_user_by_username_None in Hu.
  unfold users_wf. simpl. rewrite !fmap_app. simpl.
  split; apply NoDup_app; (split; [done|]); (split; [|apply NoDup_singleton]).
  - intros i Hi Heq. apply list_elem_of_singleton in Heq as ->.
    by apply fresh_id_not_elem_of in Hi.
  - intros n Hn Heq. apply list_elem_of_singleton in Heq as ->. done.
Qed.

Lemma register_keeps_users_wf_witness :
  users_wf (snd (register hash0 (mkUserCreate "carol" "pw") "na" 500 db0)) ∧
  users_wf (snd (register hash0 (mkUserCreate "alice" "pw") "na" 500 db0)).
Proof.
  assert (Hwf : users_wf db0) by (split; by apply (bool_decide_unpack _)).
  split; by apply register_keeps_users_wf.
Defined.



(** X4: the ways [login] fails.  It answers 401 "Incorrect username or
    password" exactly when the username does not resolve or the hash context
    finds that the password does not match the stored hash, the same answer
    in both cases; any other failure is an exception the hash context raised
    while verifying, which leaves the endpoint as it is. *)
Theorem login_failure (SECRET_KEY : string)
    (pwd_verify : string → string → outcome bool)
    (username password : string) (now : Z) (d : Db) (e : exn) :
  login SECRET_KEY pwd_verify username password now d = Raise e ↔
  (e = HTTPException 401 "Incorrect username or password" ∧
   (get_user_by_username d username = None ∨
    ∃ user, get_user_by_username d username = Some user ∧
            pwd_verify password (user_password_hash user) = Return false)) ∨
  (∃ user, get_user_by_username d username = Some user ∧
           pwd_verify password (user_password_hash user) = Raise e).
Proof.
  unfold login, verify_password.
  destruct (get_user_by_username d username) as [user|].
  - destruct (pwd_verify password (user_password_hash user)) as [[|]|e'] eqn:Hv.
    + split; [done|].
      intros [[_ [? | (u & [= <-] & Hf)]] | (u & [= <-] & Hf)]; congruence.
    + split.
      * intros [= <-]. left. eauto.
      * intros [[-> _] | (u & [= <-] & Hf)]; congruence.
    + split.
      * intros [= <-]. right. eauto.
      * intros [[_ [? | (u & [= <-] & Hf)]] | (u & [= <-] & Hf)]; congruence.
  - split.
    + intros [= <-]. left. eauto.
    + intros [[-> _] | (u & ? & _)]; congruence.
Qed.

(** The three failures of [login] on the store of alice and bob: a name that
    does not resolve, a password that does not match, a password the hash
    context refuses. *)
Example login_failures :
  login key0 verify0 "carol" "pw" 1000 db0
  = Raise (HTTPException 401 "Incorrect username or password") ∧
  login key0 verify0 "alice" "rabbit" 1000 db0
  = Raise (HTTPException 401 "Incorrect username or password") ∧
  login key0 verify0 "alice" (String Ascii.zero "x") 1000 db0 = Raise ValueError.
Proof. vm_compute. repeat split. Qed.

(** X5: the lifetime of an access token, for a clock and an [expires_delta]
    in whole seconds and an expiry that is a [datetime] (the sum overflows
    otherwise, and no token is made).  With no [expires_delta], and also with
    a zero one (falsy in Python, so the default applies), the token validates
    to its subject exactly up to thirty minutes after issuance; with a
    nonzero [expires_delta] exactly up to that delta. *)
Theorem access_token_lifetime (SECRET_KEY : string)
    (int_of_str : string → option Z) (X : string) (t0 now : Z) :
  (in_datetime_range (t0 + 1800) →
   (validate SECRET_KEY int_of_str
      (create_access_token SECRET_KEY {["sub" := CStr X]} None t0) now
    = Return (CStr X) ↔ (now ≤ t0 + 1800)%Z) ∧
   (validate SECRET_KEY int_of_str
      (create_access_token SECRET_KEY {["sub" := CStr X]} (Some 0%Z) t0) now
    = Return (CStr X) ↔ (now ≤ t0 + 1800)%Z)) ∧
  (∀ delta, delta ≠ 0%Z → in_datetime_range (t0 + delta) →
     (validate SECRET_KEY int_of_str
        (create_access_token SECRET_KEY {["sub" := CStr X]} (Some delta) t0) now
      = Return (CStr X) ↔ (now ≤ t0 + delta)%Z)).
Proof.
  assert (Hgen : ∀ delta,
    validate SECRET_KEY int_of_str
      (create_access_token SECRET_KEY {["sub" := CStr X]} delta t0) now
    = Return (CStr X) ↔
    (now ≤ t0 + match delta with
                | Some d => if (d =? 0)%Z then 1800 else d
                | None => 1800
                end)%Z).
  { intros delta. unfold validate, create_access_token.
    change (minutes ACCESS_TOKEN_EXPIRE_MINUTES) with 1800%Z.
    generalize (match delta with
                | Some d => if (d =? 0)%Z then 1800%Z else d
                | None => 1800%Z
                end). intros eff.
    rewrite jwt_decode_access_token.
    destruct (Z.ltb_spec (t0 + eff) now) as [Hlt | Hge].
    - split; [done | intros; exfalso; lia].
    - rewrite lookup_insert_ne by done. rewrite lookup_singleton_eq.
      split; [intros; lia | done]. }
  split.
  - intros _. split; [apply (Hgen None) | apply (Hgen (Some 0%Z))].
  - intros delta Hne _. rewrite (Hgen (Some delta)).
    by destruct (Z.eqb_spec delta 0).
Qed.

Lemma access_token_lifetime_witness :
  validate key0 int0
    (create_access_token key0 {["sub" := CStr "alice"]} (Some 60%Z) 0) 60
  = Return (CStr "alice") ∧
  validate key0 int0
    (create_access_token key0 {["sub" := CStr "alice"]} (Some 0%Z) 0) 1800
  = Return (CStr "alice").
Proof.
  destruct (access_token_lifetime key0 int0 "alice" 0 60) as (_ & Hd).
  destruct (access_token_lifetime key0 int0 "alice" 0 1800) as (Hz & _).
  split.
  - apply Hd; [discriminate | split; vm_compute; discriminate |].
    vm_compute. discriminate.
  - apply Hz; [split; vm_compute; discriminate |]. vm_compute. discriminate.
Defined.

(** X6: the lifetime of a refresh token: rotation's own validation accepts
    it, with its subject, up to seven days after issuance, and from then on
    answers 401 "Invalid refresh token". *)
Theorem refresh_token_lifetime (SECRET_KEY : string)
    (int_of_str : string → option Z) (X : string) (t0 now : Z) :
  ((now ≤ t0 + 604800)%Z →
   decode_refresh SECRET_KEY int_of_str
     (create_refresh_token SECRET_KEY {["sub" := CStr X]} t0) now
   = Return (CStr X)) ∧
  ((t0 + 604800 < now)%Z →
   decode_refresh SECRET_KEY int_of_str
     (create_refresh_token SECRET_KEY {["sub" := CStr X]} t0) now
   = Raise (HTTPException 401 "Invalid refresh token")).
Proof.
  split; intros Ht; [by apply decode_refresh_created|].
  unfold decode_refresh. rewrite jwt_decode_refresh_token.
  change (days REFRESH_TOKEN_EXPIRE_DAYS) with 604800%Z.
  by rewrite (proj2 (Z.ltb_lt _ _)) by lia.
Qed.

Lemma refresh_token_lifetime_witness :
  decode_refresh key0 int0
    (create_refresh_token key0 {["sub" := CStr "alice"]} 0) 604800
  = Return (CStr "alice") ∧
  decode_refresh key0 int0
    (create_refresh_token key0 {["sub" := CStr "alice"]} 0) 604801
  = Raise (HTTPException 401 "Invalid refresh token").
Proof.
  destruct (refresh_token_lifetime key0 int0 "alice" 0 604800) as [Hok _].
  destruct (refresh_token_lifetime key0 int0 "alice" 0 604801) as [_ Hexp].
  split; [apply Hok | apply Hexp]; vm_compute; congruence.
Defined.

(** X7: for a token whose claims are JSON strings and integers, every way
    [refresh_token] fails is an HTTP 401 with one of three details (a
    [JWTError] never escapes), and when it answers, the token passed refresh
    validation with the name of a stored user as subject and the answer is a
    fresh bearer pair for that name. *)
Theorem refresh_token_outcome (SECRET_KEY : string)
    (int_of_str : string → option Z) (tok : token) (now : Z) (d : Db) :
  match refresh_token SECRET_KEY int_of_str tok now d with
  | Raise e =>
      e = HTTPException 401 "Invalid refresh token" ∨
      e = HTTPException 401 "Invalid refresh token type" ∨
      e = HTTPException 401 "User not found"
  | Return issued =>
      ∃ user, user ∈ users d ∧
        decode_refresh SECRET_KEY int_of_str tok now
        = Return (CStr (user_username user)) ∧
        issued = mkToken
          (create_access_token SECRET_KEY {["sub" := CStr (user_username user)]}
             None now)
          (create_refresh_token SECRET_KEY {["sub" := CStr (user_username user)]}
             now)
          "bearer"
  end.
Proof.
  unfold refresh_token.
  destruct (decode_refresh SECRET_KEY int_of_str tok now) as [c | e] eqn:Hd.
  - destruct c as [username | n]; simpl; [|auto].
    destruct (get_user_by_username d username) as [user|] eqn:Hu; [|auto].
    apply get_user_by_username_Some in Hu as [Hu <-]. eauto.
  - unfold decode_refresh in Hd.
    destruct (jwt_decode int_of_str tok SECRET_KEY [ALGORITHM] now)
      as [payload | e'] eqn:Hj.
    + case_bool_decide; [injection Hd as <-; auto|].
      destruct (payload !! "sub"); [done|]. injection Hd as <-. auto.
    + apply jwt_decode_Raise in Hj as ->. injection Hd as <-. auto.
Qed.

(** X8: [login_json] answers 400 "username and password required" when
    either field of the body is missing or empty, and otherwise does what
    [login] does with the same username and password. *)
Theorem login_json_spec (SECRET_KEY : string)
    (pwd_verify : string → string → outcome bool)
    (payload : gmap string string) (now : Z) (d : Db) :
  (missing_or_empty payload "username" ∨ missing_or_empty payload "password" →
   login_json SECRET_KEY pwd_verify payload now d
   = Raise (HTTPException 400 "username and password required")) ∧
  (∀ username password,
     payload !! "username" = Some username → username ≠ "" →
     payload !! "password" = Some password → password ≠ "" →
     login_json SECRET_KEY pwd_verify payload now d
     = login SECRET_KEY pwd_verify username password now d).
Proof.
  split.
  - intros H. unfold login_json.
    destruct H as [H | H]; apply nonempty_missing_or_empty in H; rewrite H;
      [done|]. by destruct (nonempty (payload !! "username")).
  - intros username password Hu Hu' Hp Hp'. unfold login_json, login.
    rewrite (nonempty_present _ username), (nonempty_present _ password) by done.
    done.
Qed.

Lemma login_json_spec_witness :
  login_json key0 verify0 {["username" := "alice"]} 1000 db0
  = Raise (HTTPException 400 "username and password required") ∧
  login_json key0 verify0 (<["username" := "alice"]> {["password" := "wonderland"]})
    1000 db0
  = login key0 verify0 "alice" "wonderland" 1000 db0.
Proof.
  split.
  - apply (login_json_spec key0 verify0 {["username" := "alice"]} 1000 db0).
    right. left. reflexivity.
  - apply (login_json_spec key0 verify0); done.
Defined.


(** ** The registry *)

(** X10: deregistering an identity that has no session changes nothing
    ([pop] with a default raises no [KeyError]), and registering an identity
    that had no session and then deregistering it restores the state. *)
Theorem disconnect_absent (X : string) (s : WebSocket) (w : World) :
  active_connections w !! X = None →
  disconnect X w = w ∧
  disconnect X (snd (connect X s IoOk w)) = w.
Proof.
  intros H. destruct w as [d reg log]. unfold disconnect, connect. simpl in *.
  by rewrite delete_id, delete_insert_id.
Qed.

Lemma disconnect_absent_witness :
  disconnect "alice" world0 = world0 ∧
  disconnect "alice" (snd (connect "alice" ws1 IoOk world0)) = world0.
Proof. apply (disconnect_absent "alice" ws1 world0). reflexivity. Defined.

(** ** The router *)

(** X11: a well-formed frame between two stored users whose commit succeeds
    stores exactly one message (fresh id, the two users' keys, the content,
    status [sent], the clock reading) and leaves the registry alone; the
    envelope goes to the recipient's socket when one is registered and the
    push succeeds, then the acknowledgement to the sender when that write
    succeeds; whatever the fate of the two writes, the handler stays in its
    loop. *)
Theorem frame_routed (ws : WebSocket) (username to_user content : string)
    (data : gmap string string) (now : Z) (p r : io) (w : World)
    (sender receiver : User) :
  data !! "to" = Some to_user → to_user ≠ "" →
  data !! "content" = Some content → content ≠ "" →
  get_user_by_username (db w) username = Some sender →
  get_user_by_username (db w) to_user = Some receiver →
  let msg := mkMessage (fresh_id (msg_id <$> messages (db w)))
                       (user_id sender) (user_id receiver) content "sent" now in
  let pushed :=
    match active_connections w !! to_user, p with
    | Some rws, IoOk =>
        [(rws, FromFrame username content "sent" now (msg_id msg))]
    | _, _ => []
    end in
  let acked :=
    match r with
    | IoOk => [(ws, ToFrame to_user content "sent" now (msg_id msg))]
    | IoRaise _ => []
    end in
  handle_frame ws username (mkTurn (RecvJson data) now IoOk p r) w
  = (Return tt,
     mkWorld (add_message msg (db w)) (active_connections w)
             (sent w ++ pushed ++ acked)).
Proof.
  intros Hto Hto' Hc Hc' Hs Hr msg pushed acked.
  unfold handle_frame, bind, receive_json. simpl.
  rewrite (nonempty_present _ to_user), (nonempty_present _ content) by done.
  rewrite Hs, Hr. unfold persist, send_personal_message, bind, ret, try_log.
  simpl. subst pushed acked.
  destruct (active_connections w !! to_user) as [rws|]; destruct p, r; simpl;
    rewrite ?app_nil_r, <- ?app_assoc; reflexivity.
Qed.

(** alice writes to bob, who is connected; bob's socket takes the envelope,
    alice's own socket refuses the acknowledgement. *)
Lemma frame_routed_witness :
  let w := snd (connect "bob" ws2 IoOk world0) in
  handle_frame ws1 "alice"
    (mkTurn (RecvJson (frame_to "bob" "hi")) 300 IoOk IoOk (IoRaise RuntimeError)) w
  = (Return tt,
     mkWorld (mkDb [alice; bob] [mkMessage 1 1 2 "hi" "sent" 300])
             (active_connections w)
             [(ws2, FromFrame "alice" "hi" "sent" 300 1)]).
Proof.
  intros w.
  rewrite (frame_routed ws1 "alice" "bob" "hi" (frame_to "bob" "hi") 300 IoOk
             (IoRaise RuntimeError) w alice bob); done.
Defined.

(** ** What a session does to the state *)

(** One pass through the loop body, whatever its frame and whatever the
    outside decides: the users and the registry stay, the messages and the
    log of sent frames are extended, a message stored has the next key and is
    the session's own, and an envelope sent quotes a stored message. *)
Lemma handle_frame_step (ws : WebSocket) (username : string) (t : turn)
    (w : World) :
  ∃ new_msgs new_sent,
    snd (handle_frame ws username t w)
    = mkWorld (mkDb (users (db w)) (messages (db w) ++ new_msgs))
              (active_connections w) (sent w ++ new_sent) ∧
    Forall (λ m, msg_id m = fresh_id (msg_id <$> messages (db w)) ∧
                 stored_by (db w) username m) new_msgs ∧
    Forall (λ x, frame_backed (mkDb (users (db w)) (messages (db w) ++ new_msgs))
                              (snd x)) new_sent ∧
    (length new_msgs ≤ 1)%nat.
Proof.
  destruct w as [[us ms] reg log]. destruct t as [rc now c p r].
  unfold handle_frame, bind, receive_json. simpl.
  assert (Hsame : ∃ new_msgs new_sent,
    mkWorld (mkDb us ms) reg log
    = mkWorld (mkDb us (ms ++ new_msgs)) reg (log ++ new_sent) ∧
    Forall (λ m, msg_id m = fresh_id (msg_id <$> ms) ∧
                 stored_by (mkDb us ms) username m) new_msgs ∧
    Forall (λ x, frame_backed (mkDb us (ms ++ new_msgs)) (snd x)) new_sent ∧
    (length new_msgs ≤ 1)%nat).
  { exists [], []. rewrite !app_nil_r. repeat split; auto. }
  assert (Herr : ∀ detail, ∃ new_msgs new_sent,
    snd (send_json ws (ErrorFrame detail) r (mkWorld (mkDb us ms) reg log))
    = mkWorld (mkDb us (ms ++ new_msgs)) reg (log ++ new_sent) ∧
    Forall (λ m, msg_id m = fresh_id (msg_id <$> ms) ∧
                 stored_by (mkDb us ms) username m) new_msgs ∧
    Forall (λ x, frame_backed (mkDb us (ms ++ new_msgs)) (snd x)) new_sent ∧
    (length new_msgs ≤ 1)%nat).
  { intros detail. destruct r; [|exact Hsame].
    exists [], [(ws, ErrorFrame detail)]. simpl. rewrite !app_nil_r.
    repeat split; auto. by repeat constructor. }
  destruct rc as [data | e]; [|exact Hsame].
  destruct (nonempty (data !! "to")) as [to_user|]; [|apply Herr].
  destruct (nonempty (data !! "content")) as [content|]; [|apply Herr].
  cbn [db].
  destruct (get_user_by_username (mkDb us ms) username) as [sender|] eqn:Hs;
    [|apply Herr].
  destruct (get_user_by_username (mkDb us ms) to_user) as [receiver|] eqn:Hr;
    [|apply Herr].
  destruct c as [|e]; [|exact Hsame].
  unfold persist, send_personal_message, bind, ret, try_log. simpl.
  set (msg := mkMessage (fresh_id (msg_id <$> ms)) (user_id sender)
                        (user_id receiver) content "sent" now).
  assert (Hbacked : ∀ who : string,
    frame_backed (mkDb us (ms ++ [msg]))
                 (FromFrame who content "sent" now (msg_id msg)) ∧
    frame_backed (mkDb us (ms ++ [msg]))
                 (ToFrame who content "sent" now (msg_id msg))).
  { intros who. split; exists msg; (split; [|done]); simpl;
      apply elem_of_app; right; left. }
  exists [msg],
    (match reg !! to_user, p with
     | Some rws, IoOk => [(rws, FromFrame username content "sent" now (msg_id msg))]
     | _, _ => []
     end ++
     match r with
     | IoOk => [(ws, ToFrame to_user content "sent" now (msg_id msg))]
     | IoRaise _ => []
     end)%list.
  split; [|split; [|split; [|done]]].
  - destruct (reg !! to_user) as [rws|]; destruct p, r; simpl;
      rewrite ?app_nil_r, <- ?app_assoc; reflexivity.
  - constructor; [|constructor]. split; [done|]. split; [done|].
    apply get_user_by_username_Some in Hr as [Hr _]. split; eauto.
  - apply Forall_app. split.
    + destruct (reg !! to_user) as [rws|]; [destruct p|];
        try (by apply Forall_nil_2).
      apply Forall_singleton. exact (proj1 (Hbacked username)).
    + destruct r; [|by apply Forall_nil_2].
      apply Forall_singleton. exact (proj2 (Hbacked to_user)).
Qed.

Lemma session_loop_inv (I : World → Prop) (ws : WebSocket) (username : string) :
  (∀ t w, I w → I (snd (handle_frame ws username t w))) →
  ∀ turns w, I w → I (snd (session_loop ws username turns w)).
Proof.
  intros Hstep turns. induction turns as [|t rest IH]; intros w Hw; [done|].
  simpl. specialize (Hstep t w Hw).
  destruct (handle_frame ws username t w) as [[a | e] w']; simpl in *; auto.
Qed.

(** A property that does not read the registry and that every pass keeps is
    kept by the whole handler. *)
Lemma chat_websocket_inv (I : World → Prop) (ws : WebSocket) (username : string)
    (accept : io) (turns : list turn) (w : World) :
  (∀ w reg, I w → I (mkWorld (db w) reg (sent w))) →
  (∀ t w, I w → I (snd (handle_frame ws username t w))) →
  I w → I (snd (chat_websocket ws username accept turns w)).
Proof.
  intros Hreg Hstep Hw. unfold chat_websocket, connect, serve.
  destruct accept as [|e]; [|done].
  pose proof (session_loop_inv I ws username Hstep turns
                (mkWorld (db w) (<[username:=ws]> (active_connections w)) (sent w))
                (Hreg _ _ Hw)) as Hloop.
  destruct (session_loop _ _ _ _) as [[|e] w1]; simpl in *; [done|].
  destruct e; simpl; try done. by apply Hreg.
Qed.

Lemma session_loop_registry (ws : WebSocket) (username : string)
    (turns : list turn) (w : World) :
  active_connections (snd (session_loop ws username turns w))
  = active_connections w.
Proof.
  apply (session_loop_inv (λ w', active_connections w' = active_connections w));
    [|done].
  intros t w' Hw'.
  destruct (handle_frame_step ws username t w') as (nm & ns & -> & _). done.
Qed.

Lemma stored_by_same_users (d d' : Db) (username : string) (m : Message) :
  users d = users d' → stored_by d username m → stored_by d' username m.
Proof.
  intros Hu (Hst & Hs & Hr). unfold stored_by, get_user_by_username in *.
  by rewrite <- Hu.
Qed.

(** X12: a session leaves the [users] table as it is and touches no entry
    of the registry but its own: the session registered for any other
    identity is the same after the handler as before. *)
Theorem session_touches_only_its_entry (ws : WebSocket) (username : string)
    (accept : io) (turns : list turn) (w : World) :
  users (db (snd (chat_websocket ws username accept turns w))) = users (db w) ∧
  ∀ k, k ≠ username →
       lookup_session k (snd (chat_websocket ws username accept turns w))
       = lookup_session k w.
Proof.
  split.
  - apply (chat_websocket_inv (λ w', users (db w') = users (db w))); try done.
    intros t w' Hw'.
    destruct (handle_frame_step ws username t w') as (nm & ns & -> & _). done.
  - intros k Hk. unfold lookup_session, chat_websocket, connect, serve.
    destruct accept as [|e]; [|done].
    pose proof (session_loop_registry ws username turns
      (mkWorld (db w) (<[username:=ws]> (active_connections w)) (sent w))) as Hreg.
    destruct (session_loop _ _ _ _) as [[|e] w1]; simpl in *.
    + rewrite Hreg. by rewrite lookup_insert_ne.
    + destruct e; simpl; rewrite Hreg, ?lookup_delete_ne, lookup_insert_ne; done.
Qed.

(** X13: a session only appends: the messages stored before are still
    there, in place and unchanged, followed by those the session stored, and
    likewise the log of frames sent; every message the session stored has
    status [sent], the session's own user as sender and a stored user as
    receiver. *)
Theorem session_appends (ws : WebSocket) (username : string) (accept : io)
    (turns : list turn) (w : World) :
  let w' := snd (chat_websocket ws username accept turns w) in
  ∃ new_msgs new_sent,
    messages (db w') = (messages (db w) ++ new_msgs)%list ∧
    sent w' = (sent w ++ new_sent)%list ∧
    Forall (stored_by (db w) username) new_msgs.
Proof.
  apply (chat_websocket_inv (λ w',
    users (db w') = users (db w) ∧
    ∃ new_msgs new_sent,
      messages (db w') = (messages (db w) ++ new_msgs)%list ∧
      sent w' = (sent w ++ new_sent)%list ∧
      Forall (stored_by (db w) username) new_msgs)).
  - done.
  - intros t w' (Hu & nm & ns & Hm & Hs & Hall).
    destruct (handle_frame_step ws username t w') as (nm' & ns' & -> & Hnew & _).
    simpl. split; [done|]. exists (nm ++ nm')%list, (ns ++ ns')%list.
    rewrite Hm, Hs, !app_assoc. split; [done|]. split; [done|].
    apply Forall_app. split; [done|].
    eapply Forall_impl; [exact Hnew|]. intros m [_ Hm'].
    by apply (stored_by_same_users (db w')).
  - split; [done|]. exists [], []. by rewrite !app_nil_r.
Qed.

(** The keys the store hands out agree with the primary-key constraint of
    the [messages] table: when no two stored messages share an id before the
    handler runs, none do after it. *)
Lemma session_keeps_message_ids_distinct (ws : WebSocket) (username : string)
    (accept : io) (turns : list turn) (w : World) :
  NoDup (msg_id <$> messages (db w)) →
  NoDup (msg_id <$> messages (db (snd (chat_websocket ws username accept turns w)))).
Proof.
  apply (chat_websocket_inv (λ w', NoDup (msg_id <$> messages (db w')))).
  - done.
  - intros t w' Hnd.
    destruct (handle_frame_step ws username t w')
      as (nm & ns & -> & Hnew & _ & Hlen).
    simpl. rewrite fmap_app. apply NoDup_app. split; [done|].
    destruct nm as [|m [|m2 nm]]; simpl in Hlen; [| |lia].
    + split; [intros i _; apply not_elem_of_nil | constructor].
    + apply Forall_singleton in Hnew as [Hid _].
      split; [|apply NoDup_singleton]. intros i Hi Heq. simpl in Heq.
      apply list_elem_of_singleton in Heq as ->. rewrite Hid in Hi.
      by apply fresh_id_not_elem_of in Hi.
Qed.

Lemma frame_backed_mono (d d' : Db) (f : frame) :
  (∀ m, m ∈ messages d → m ∈ messages d') →
  frame_backed d f → frame_backed d' f.
Proof.
  intros Hsub. destruct f as [detail | who c s t i | who c s t i]; simpl;
    [done | |]; intros (m & Hm & Hrest); exists m; auto.
Qed.

(** X14: a session sends no envelope for a message that is not stored: when
    every envelope in the log of sent frames quotes a stored message (same
    id, content, status and timestamp) before the handler runs, the same
    holds after it, for the pushes to recipients and for the
    acknowledgements alike. *)
Theorem session_frames_quote_stored_messages (ws : WebSocket) (username : string)
    (accept : io) (turns : list turn) (w : World) :
  Forall (λ x, frame_backed (db w) (snd x)) (sent w) →
  let w' := snd (chat_websocket ws username accept turns w) in
  Forall (λ x, frame_backed (db w') (snd x)) (sent w').
Proof.
  apply (chat_websocket_inv (λ w', Forall (λ x, frame_backed (db w') (snd x))
                                          (sent w'))).
  - done.
  - intros t w' Hold.
    destruct (handle_frame_step ws username t w')
      as (nm & ns & -> & _ & Hnew & _).
    simpl. apply Forall_app. split; [|done].
    eapply Forall_impl; [exact Hold|]. intros x. apply frame_backed_mono.
    intros m Hm. simpl. apply elem_of_app. by left.
Qed.

(** A session of two frames, the second to a user who is connected, started
    on an empty log. *)
Lemma session_frames_quote_stored_messages_witness :
  let w := snd (connect "bob" ws2 IoOk world0) in
  let w' := snd (chat_websocket ws1 "alice" IoOk
                   [turn_ok (frame_to "carol" "hi") 300;
                    turn_ok (frame_to "bob" "hi") 301] w) in
  Forall (λ x, frame_backed (db w') (snd x)) (sent w').
Proof.
  intros w. apply (session_frames_quote_stored_messages ws1 "alice" IoOk _ w).
  apply Forall_nil_2.
Defined.

(** X15: the registry writes of a handler, from whatever state it runs:
    a refused handshake writes nothing; the handshake maps the handler's
    username to its socket; the loop writes nothing; leaving on a
    [WebSocketDisconnect] removes the username (whatever socket it is then
    mapped to), and any other exit leaves the registry as it stands. *)
Theorem session_registry_writes (ws : WebSocket) (username : string)
    (turns : list turn) (w : World) :
  (∀ e, chat_websocket ws username (IoRaise e) turns w = (Aborted e, w)) ∧
  active_connections (snd (session_loop ws username turns w))
  = active_connections w ∧
  active_connections (snd (serve ws username turns w))
  = match fst (serve ws username turns w) with
    | Disconnected => delete username (active_connections w)
    | Receiving | Aborted _ => active_connections w
    end ∧
  active_connections (snd (chat_websocket ws username IoOk turns w))
  = match fst (chat_websocket ws username IoOk turns w) with
    | Disconnected => delete username (active_connections w)
    | Receiving | Aborted _ => <[username := ws]> (active_connections w)
    end.
Proof.
  assert (Hserve : ∀ w1,
    active_connections (snd (serve ws username turns w1))
    = match fst (serve ws username turns w1) with
      | Disconnected => delete username (active_connections w1)
      | Receiving | Aborted _ => active_connections w1
      end).
  { intros w1. unfold serve.
    pose proof (session_loop_registry ws username turns w1) as Hreg.
    destruct (session_loop ws username turns w1) as [[|e] w2]; simpl in *;
      [done|]. destruct e; simpl; by rewrite Hreg. }
  split; [done|]. split; [apply session_loop_registry|]. split; [apply Hserve|].
  unfold chat_websocket, connect. rewrite Hserve.
  destruct (fst (serve _ _ _ _)); simpl; [done | | done].
  apply delete_insert_eq.
Qed.

(** ** History and routing together *)

Lemma between_sym (a b : User) (m : Message) : between a b m ↔ between b a m.
Proof. unfold between. tauto. Qed.

Lemma render_swap (d : Db) (A B : string) (a b : User) (m : Message) :
  users_wf d →
  get_user_by_username d A = Some a →
  get_user_by_username d B = Some b →
  between a b m →
  render A B a m = render B A b m.
Proof.
  intros [Hid _] Ha Hb Hm. unfold render.
  apply get_user_by_username_Some in Ha as [Ha HA].
  apply get_user_by_username_Some in Hb as [Hb HB].
  assert (Heq : user_id a = user_id b → A = B).
  { intros Hab. rewrite <- HA, <- HB. f_equal.
    by apply (NoDup_fmap_elem_eq user_id (users d)). }
  do 2 case_bool_decide.
  - rewrite Heq by congruence. done.
  - done.
  - done.
  - destruct Hm as [[? _] | [? _]]; done.
Qed.

(** X16: the history of a conversation does not depend on the order in
    which its two ends are named: on a store that satisfies the constraints
    of its [users] table, [get_messages A B] and [get_messages B A] hold the
    same entries, each as often, resolved identities or not.  (Both are in
    timestamp order; how entries of equal timestamp are arranged is the
    database's choice in each query.) *)
Theorem get_messages_symmetric (A B : string) (d : Db) :
  users_wf d →
  ∃ rows1 rows2,
    get_messages A B d = Return rows1 ∧
    get_messages B A d = Return rows2 ∧
    rows1 ≡ₚ rows2.
Proof.
  intros Hwf. unfold get_messages.
  destruct (get_user_by_username d A) as [a|] eqn:Ha;
    destruct (get_user_by_username d B) as [b|] eqn:Hb;
    try (by exists [], []).
  eexists _, _. split; [reflexivity|]. split; [reflexivity|].
  unfold order_by_timestamp. rewrite !merge_sort_Permutation.
  rewrite (list_filter_iff (between b a) (between a b))
    by (intros m; apply between_sym).
  replace (render B A b <$> filter (between a b) (messages d))
    with (render A B a <$> filter (between a b) (messages d)); [done|].
  apply Forall_fmap_ext_1, Forall_forall. intros m Hm.
  apply (render_swap d); try done.
  apply list_elem_of_filter in Hm. tauto.
Qed.

Lemma get_messages_symmetric_witness :
  ∃ rows1 rows2,
    get_messages "alice" "bob" db1 = Return rows1 ∧
    get_messages "bob" "alice" db1 = Return rows2 ∧
    rows1 ≡ₚ rows2.
Proof.
  apply get_messages_symmetric. split; by apply (bool_decide_unpack _).
Defined.

Lemma handle_frame_commit_ok_db (ws : WebSocket) (username to_user content : string)
    (data : gmap string string) (now : Z) (p r : io) (w : World)
    (sender receiver : User) :
  nonempty (data !! "to") = Some to_user →
  nonempty (data !! "content") = Some content →
  get_user_by_username (db w) username = Some sender →
  get_user_by_username (db w) to_user = Some receiver →
  db (snd (handle_frame ws username (mkTurn (RecvJson data) now IoOk p r) w))
  = add_message (mkMessage (fresh_id (msg_id <$> messages (db w)))
                           (user_id sender) (user_id receiver) content "sent" now)
                (db w).
Proof.
  intros Hto Hc Hs Hr. unfold handle_frame, bind, receive_json. simpl.
  rewrite Hto, Hc, Hs, Hr.
  unfold persist, send_personal_message, bind, ret, try_log. simpl.
  destruct (active_connections w !! to_user); destruct p, r; reflexivity.
Qed.

(** X17: a message that was routed is in the history: after a well-formed
    frame from [username] to [to_user], both stored users, whose commit
    succeeded, [get_messages username to_user] holds an entry with the
    message's id, [username] as sender, [to_user] as receiver, the content,
    status [sent] and the timestamp, whatever became of the push and of the
    acknowledgement. *)
Theorem routed_message_in_history (ws : WebSocket)
    (username to_user content : string) (data : gmap string string) (now : Z)
    (p r : io) (w : World) (sender receiver : User) :
  data !! "to" = Some to_user → to_user ≠ "" →
  data !! "content" = Some content → content ≠ "" →
  get_user_by_username (db w) username = Some sender →
  get_user_by_username (db w) to_user = Some receiver →
  let w' := snd (handle_frame ws username (mkTurn (RecvJson data) now IoOk p r) w) in
  ∃ rows,
    get_messages username to_user (db w') = Return rows ∧
    mkRow (fresh_id (msg_id <$> messages (db w))) username to_user content
          "sent" now ∈ rows.
Proof.
  intros Hto Hto' Hc Hc' Hs Hr w'. subst w'.
  rewrite (handle_frame_commit_ok_db _ _ to_user content _ _ _ _ _ sender receiver)
    by auto using nonempty_present.
  set (msg := mkMessage _ _ _ _ _ _).
  unfold get_messages.
  change (get_user_by_username (add_message msg (db w)) username)
    with (get_user_by_username (db w) username).
  change (get_user_by_username (add_message msg (db w)) to_user)
    with (get_user_by_username (db w) to_user).
  rewrite Hs, Hr. eexists. split; [reflexivity|].
  apply (list_elem_of_fmap_2' _ _ msg).
  - unfold order_by_timestamp. rewrite merge_sort_Permutation.
    apply list_elem_of_filter. split; [by left|].
    simpl. apply elem_of_app. right. left.
  - unfold render. simpl. by rewrite bool_decide_eq_true_2.
Qed.

(** alice writes to bob while bob is away. *)
Lemma routed_message_in_history_witness :
  ∃ rows,
    get_messages "alice" "bob"
      (db (snd (handle_frame ws1 "alice" (turn_ok (frame_to "bob" "hi") 300) world0)))
    = Return rows ∧
    mkRow 1 "alice" "bob" "hi" "sent" 300 ∈ rows.
Proof.
  apply (routed_message_in_history ws1 "alice" "bob" "hi" (frame_to "bob" "hi") 300
           IoOk IoOk world0 alice bob); done.
Defined.
